(** * Condor: the CXI stack writer and the CCP4 map reader

    A shallow embedding of [condor/utils/cxiwriter.py]: the class
    [CXIWriter] (an incremental writer of nested records into an HDF5
    container) and the function [read_map] (a reader of CCP4 map files),
    with the properties that their specification states of them.

    Conventions of the embedding.
    - The module runs on Python 2 and on Python 3 (line 32). It imports
      [print_function] and [absolute_import] from [__future__], not
      [division]: [/] on two integers is the floor division on Python 2
      and the true division on Python 3. The writer is modelled over
      both, see [interpreter].
    - A Python exception is a value [Exn cls msg]; code that can raise
      runs in the monad [M S], which threads the mutable state [S] and
      keeps the state reached when an exception is raised.
    - [numpy] and [h5py] are libraries outside the repository; the
      fragments of them that the module calls are modelled here and
      named after the library function they stand for. The writer is
      modelled over any behaviour of [Dataset.__setitem__]; a reference
      behaviour serves the examples.
    - A name that a function looks up and that the module does not bind
      is looked up in a namespace given to the function, which is empty
      for the module as it is written.

    The file has the definitions first: the monad, the values, the writer
    and the reader with the vocabulary of their properties, then the
    proofs. *)

From Stdlib Require Import ZArith List Ascii String Strings.Byte PrimFloat FloatOps SpecFloat
  Lia Bool.
From stdpp Require Import base list strings pretty.
Import ListNotations.
Set Warnings "-register-all".
Local Open Scope string_scope.
Local Open Scope list_scope.
Local Open Scope Z_scope.

(** ** Python exceptions and the state-and-exception monad *)

Module Py.

Inductive exn_class :=
| NameError | IndexError | ValueError | TypeError
| AttributeError | KeyError | ZeroDivisionError | OverflowError.

Record exn := Exn { exn_cls : exn_class; exn_msg : string }.

Inductive result (A : Type) :=
| OK (a : A)
| Raise (e : exn).
Arguments OK {A} a.
Arguments Raise {A} e.

(** A computation over a mutable state [S]: it yields a value or raises,
    and in both cases leaves a state behind. *)
Definition M (S A : Type) : Type := S -> result A * S.

Definition ret {S A} (a : A) : M S A := fun s => (OK a, s).

Definition bind {S A B} (m : M S A) (k : A -> M S B) : M S B :=
  fun s => match m s with
           | (OK a, s') => k a s'
           | (Raise e, s') => (Raise e, s')
           end.

Definition raise {S A} (e : exn) : M S A := fun s => (Raise e, s).

Definition lift {S A} (r : result A) : M S A := fun s => (r, s).

Definition gets {S A} (f : S -> A) : M S A := fun s => (OK (f s), s).

Definition modify {S} (f : S -> S) : M S unit := fun s => (OK tt, f s).

Definition when {S} (b : bool) (m : M S unit) : M S unit :=
  if b then m else ret tt.

(** [for x in xs: body x] *)
Definition for_each {S A} (body : A -> M S unit) : list A -> M S unit :=
  fix loop (xs : list A) : M S unit :=
    match xs with
    | [] => ret tt
    | x :: xs' => bind (body x) (fun _ => loop xs')
    end.

(** [l[i]] on a Python list: a negative index counts from the end. *)
Definition list_index {A} (l : list A) (i : Z) : result A :=
  let n := Z.of_nat (length l) in
  let j := if i <? 0 then i + n else i in
  if (0 <=? j) && (j <? n) then
    match nth_error l (Z.to_nat j) with
    | Some x => OK x
    | None => Raise (Exn IndexError "list index out of range")
    end
  else Raise (Exn IndexError "list index out of range").

End Py.
Import Py.

Declare Scope py_scope.
Delimit Scope py_scope with py.
Notation "x <- c ;; k" := (bind c (fun x => k))
  (at level 100, c at next level, right associativity) : py_scope.
Notation "c ;;; k" := (bind c (fun _ => k))
  (at level 100, right associativity) : py_scope.
Local Open Scope py_scope.

(** ** Python values

    The values a record can hold: scalars, [None], lists, dictionaries
    (insertion-ordered association lists, the order being that of
    [D.keys()]) and numpy arrays (element type, shape and the elements in
    C order). *)

Inductive np_dtype :=
| Dbool | Dint64 | Duint64 | Dfloat64 | Dtext | Dvlen | Dobject.

Inductive pyval :=
| PNone
| PBool (b : bool)
| PInt (z : Z)
| PFloat (x : float)
| PStr (s : string)
| PList (l : list pyval)
| PDict (items : list (string * pyval))
| PNdarray (dt : np_dtype) (shape : list nat) (elts : list pyval).

(** [v == z] for an integer literal [z], 0 or 2 in the module, and a
    value [v] that is no array: [False == 0] and [0.0 == 0] hold in
    Python; a value that is not a number is unequal to a number. *)
Definition scalar_eq_int (v : pyval) (z : Z) : bool :=
  match v with
  | PInt n => n =? z
  | PBool b => (if b then 1 else 0) =? z
  | PFloat x => if z =? 0 then PrimFloat.eqb x 0%float
                else if z =? 2 then PrimFloat.eqb x 2%float
                else false
  | _ => false
  end.

(** The truth of [v == z], as [in] takes it: numpy compares an array
    element by element, and the truth of the result is that of its
    element if it has one element, and is refused otherwise (for an
    empty array since numpy 2.2). *)
Definition py_eq_int (v : pyval) (z : Z) : result bool :=
  match v with
  | PNdarray _ _ [e] => OK (scalar_eq_int e z)
  | PNdarray _ _ _ =>
      Raise (Exn ValueError "The truth value of an array is ambiguous")
  | _ => OK (scalar_eq_int v z)
  end.

(** [v in zs] for a list of integer literals: the elements are compared
    in turn. *)
Fixpoint py_in_ints (v : pyval) (zs : list Z) : result bool :=
  match zs with
  | [] => OK false
  | z :: zs' =>
      match py_eq_int v z with
      | OK true => OK true
      | OK false => py_in_ints v zs'
      | Raise e => Raise e
      end
  end.

(** The names a function finds in its module's namespace at call time,
    beyond the imports and definitions of the module itself. *)
Definition namespace := list (string * pyval).

Fixpoint alist_get {A} (k : string) (l : list (string * A)) : option A :=
  match l with
  | [] => None
  | (k', a) :: l' => if String.eqb k k' then Some a else alist_get k l'
  end.

Definition lookup_name (g : namespace) (x : string) : result pyval :=
  match alist_get x g with
  | Some v => OK v
  | None => Raise (Exn NameError x)
  end.

(** * The CXI stack writer *)

Module CXI.

Local Open Scope nat_scope.

(** ** The interpreter

    The module runs on Python 2 and on Python 3, which differ in two
    places that matter to the writer.

    Line 108 computes the first extent to which a dataset grows,
    [self._chunksize*(self._i/self._chunksize+1)]. On Python 2 the
    quotient is that of the floor division. On Python 3 it is that of the
    true division: the product is a float, of which [resize] takes the
    integer value. The two interpreters agree where the chunk size
    divides the stack position, for the three operations are then exact,
    and with both the result is beyond the stack position (for stack
    positions that a float holds exactly). The writer is modelled over
    any evaluation [chunk_extent C i] of the expression, for a chunk size
    [C > 0], that has these two properties.

    Of a sequence that holds text, numpy makes an array of byte strings
    on Python 2, where [str] is the type of byte strings, and an array
    of unicode text on Python 3. HDF5 knows the first element type;
    for the second [h5py.h5t.py_create] raises [TypeError].
    [text_known] tells which of the two it is. *)
Record interpreter := MkInterpreter {
  chunk_extent : nat -> nat -> nat;
  extent_above : forall C i, 0 < C -> i < chunk_extent C i;
  extent_exact : forall C m, 0 < C -> chunk_extent C (C * m) = C * (m + 1);
  text_known : bool
}.

(** Python 2: [/] is the floor division of integers, and text is byte
    strings. *)
Definition python2 : interpreter.
Proof.
  refine (MkInterpreter (fun C i => C * (i / C + 1)) _ _ true).
  - intros C i HC. pose proof (Nat.div_mod_eq i C) as E.
    pose proof (Nat.mod_upper_bound i C ltac:(lia)). nia.
  - intros C m HC. rewrite (Nat.mul_comm C m), Nat.div_mul by lia. reflexivity.
Defined.

(** ** numpy: scalars and conversion to arrays *)

(** [numpy.isscalar(v)] *)
Definition isscalar (v : pyval) : bool :=
  match v with
  | PBool _ | PInt _ | PFloat _ | PStr _ => true
  | _ => false
  end.

(** The shape that numpy finds in nested sequences: the elements of a
    level are all sequences of one shape, or none of them is a sequence.
    Text is no sequence. Nested sequences without such a shape are
    refused (numpy 1.24 and later; earlier versions made an array of
    Python objects of them). *)
Fixpoint array_shape (v : pyval) : option (list nat) :=
  match v with
  | PList l =>
      match map array_shape l with
      | [] => Some [0]
      | Some s :: shapes =>
          if forallb (fun o => bool_decide (o = Some s)) shapes
          then Some (length l :: s)
          else None
      | None :: _ => None
      end
  | PNdarray _ shape _ => Some shape
  | _ => Some []
  end.

(** The elements found [depth] levels down. *)
Fixpoint elements_at (depth : nat) (v : pyval) : list pyval :=
  match depth with
  | O => [v]
  | S d =>
      match v with
      | PList l => flat_map (elements_at d) l
      | PNdarray _ shape elts => if length shape =? depth then elts else [v]
      | _ => [v]
      end
  end.

(** [numpy.dtype(type(v))], the element type of the Python type of a
    scalar, whatever its value. *)
Definition scalar_dtype (v : pyval) : np_dtype :=
  match v with
  | PBool _ => Dbool
  | PInt _ => Dint64
  | PFloat _ => Dfloat64
  | PStr _ => Dtext
  | _ => Dobject
  end.

Definition in_int64 (z : Z) : bool := ((- 2 ^ 63 <=? z) && (z <? 2 ^ 63))%Z.

Definition in_uint64 (z : Z) : bool := ((0 <=? z) && (z <? 2 ^ 64))%Z.

(** The element type that numpy finds for one element of a sequence: for
    an integer it depends on the value. *)
Definition element_dtype (v : pyval) : np_dtype :=
  match v with
  | PInt z => if in_int64 z then Dint64
              else if in_uint64 z then Duint64
              else Dobject
  | _ => scalar_dtype v
  end.

(** Type promotion among the element types of the elements of a
    sequence. *)
Definition promote (a b : np_dtype) : np_dtype :=
  match a, b with
  | Dobject, _ | _, Dobject => Dobject
  | Dvlen, _ | _, Dvlen => Dobject
  | Dtext, _ | _, Dtext => Dtext
  | Dfloat64, _ | _, Dfloat64 => Dfloat64
  | Dint64, Duint64 | Duint64, Dint64 => Dfloat64
  | Duint64, _ | _, Duint64 => Duint64
  | Dint64, _ | _, Dint64 => Dint64
  | Dbool, Dbool => Dbool
  end.

Definition elements_dtype (elts : list pyval) : np_dtype :=
  match elts with
  | [] => Dfloat64
  | e :: elts' => fold_left (fun dt x => promote dt (element_dtype x)) elts' (element_dtype e)
  end.

(** The float nearest to an integer. *)
Definition Z2float (z : Z) : float := SF2Prim (binary_normalize prec emax z 0 false).

Definition bool_int (b : bool) : Z := if b then 1%Z else 0%Z.

(** An element of a sequence as numpy stores it in an array of the
    element type [dt]. The decimal form that numpy gives a float among
    byte strings is not modelled: such a float is kept. *)
Definition convert_to (dt : np_dtype) (v : pyval) : pyval :=
  match dt, v with
  | Dint64, PBool b | Duint64, PBool b => PInt (bool_int b)
  | Dfloat64, PBool b => PFloat (Z2float (bool_int b))
  | Dfloat64, PInt z => PFloat (Z2float z)
  | Dtext, PBool b => PStr (if b then "True" else "False")
  | Dtext, PInt z => PStr (pretty z)
  | _, _ => v
  end.

(** [numpy.asarray(v)]: an array is returned as it is; a nested sequence
    becomes an array of its shape, with its elements converted to their
    common element type; a sequence that holds [None] or a dictionary
    becomes an array of Python objects; a sequence without a shape
    raises. *)
Definition asarray (v : pyval) : result pyval :=
  match v with
  | PNdarray _ _ _ => OK v
  | _ =>
      match array_shape v with
      | Some dims =>
          let elts := elements_at (length dims) v in
          let dt := elements_dtype elts in
          OK (PNdarray dt dims (map (convert_to dt) elts))
      | None =>
          Raise (Exn ValueError "The requested array has an inhomogeneous shape")
      end
  end.

(** [a.dtype], [a.shape]: attributes of an array only. *)
Definition get_dtype (v : pyval) : result np_dtype :=
  match v with
  | PNdarray dt _ _ => OK dt
  | _ => Raise (Exn AttributeError "object has no attribute 'dtype'")
  end.

Definition get_shape (v : pyval) : result (list nat) :=
  match v with
  | PNdarray _ shape _ => OK shape
  | _ => Raise (Exn AttributeError "object has no attribute 'shape'")
  end.

(** [data[:]]: a list or an array of one dimension at least can be
    sliced; [None], a dictionary, a scalar and a 0-d array cannot. *)
Definition slice_all (v : pyval) : result pyval :=
  match v with
  | PList _ => OK v
  | PStr _ => OK v
  | PNdarray _ (_ :: _) _ => OK v
  | PNdarray _ [] _ => Raise (Exn IndexError "too many indices for array")
  | _ => Raise (Exn TypeError "object is not subscriptable")
  end.

(** [h5py.h5t.py_create(dt, logical=1)] raises [TypeError] for an element
    type without an HDF5 equivalent: the type of Python objects, and
    the unicode text of Python 3. *)
Definition py_create_ok (py : interpreter) (dt : np_dtype) : bool :=
  match dt with
  | Dobject => false
  | Dtext => text_known py
  | _ => true
  end.

(** ** h5py: the container *)

(** A path of the container, by its link names. The module makes the
    name of an object by concatenation, the keys of the record each
    followed by ['/'] (lines 65 and 71), and h5py follows the name link
    by link: for keys that are names of one link each (see [link_name])
    the name is the path of these keys, and this is how the writer is
    embedded. A key that holds a ['/'] names several links; the
    embedding does not cover it. *)
Definition path := list string.

Record dataset := MkDataset {
  ds_shape : list nat;
  ds_maxshape : list (option nat);
  ds_dtype : np_dtype;
  ds_attrs : list (string * list string);
  ds_rows : list (list pyval)       (* one flat row per leading index *)
}.

Inductive node :=
| Group (children : list (string * node))
| Dataset (d : dataset).

Fixpoint alist_put {A} (k : string) (a : A) (l : list (string * A)) : list (string * A) :=
  match l with
  | [] => [(k, a)]
  | (k', a') :: l' => if String.eqb k k' then (k, a) :: l' else (k', a') :: alist_put k a l'
  end.

(** The object at a path below [n]. *)
Fixpoint get (n : node) (p : path) : option node :=
  match p with
  | [] => Some n
  | k :: p' =>
      match n with
      | Group cs => match alist_get k cs with
                    | Some c => get c p'
                    | None => None
                    end
      | Dataset _ => None
      end
  end.

(** Link [new] at path [p]; the parent of [p] must be a group. *)
Fixpoint put (n : node) (p : path) (new : node) : option node :=
  match p with
  | [] => Some new
  | k :: p' =>
      match n with
      | Group cs =>
          match p' with
          | [] => Some (Group (alist_put k new cs))
          | _ => match alist_get k cs with
                 | Some c => match put c p' new with
                             | Some c' => Some (Group (alist_put k c' cs))
                             | None => None
                             end
                 | None => None
                 end
          end
      | Dataset _ => None
      end
  end.

(** Link [new] at path [p] as [create_group] and [create_dataset] do:
    the groups missing on the way are created; a dataset on the way
    cannot hold a link. *)
Fixpoint link (n : node) (p : path) (new : node) : option node :=
  match p with
  | [] => Some new
  | k :: p' =>
      match n with
      | Group cs =>
          match p' with
          | [] => Some (Group (alist_put k new cs))
          | _ => match link (match alist_get k cs with
                             | Some c => c
                             | None => Group []
                             end) p' new with
                 | Some c' => Some (Group (alist_put k c' cs))
                 | None => None
                 end
          end
      | Dataset _ => None
      end
  end.

(** [k in g]: the links of a group; a dataset holds no link. *)
Definition contains (g : node) (k : string) : bool :=
  match g with
  | Group cs => match alist_get k cs with Some _ => true | None => false end
  | Dataset _ => false
  end.

Definition group_exists : exn :=
  Exn ValueError "Unable to create group (name already exists)".

Definition h5_create_group (f : node) (p : path) : result node :=
  match get f p with
  | Some _ => Raise group_exists
  | None => match link f p (Group []) with
            | Some f' => OK f'
            | None => Raise (Exn KeyError "Unable to create group (component not found)")
            end
  end.

Definition fill_value (dt : np_dtype) : pyval :=
  match dt with
  | Dbool => PBool false
  | Dint64 | Duint64 => PInt 0
  | Dfloat64 => PFloat 0%float
  | Dtext | Dvlen => PStr ""
  | Dobject => PNone
  end.

Definition shape_size (shape : list nat) : nat := fold_right Nat.mul 1 shape.

Definition fill_row (dt : np_dtype) (trailing : list nat) : list pyval :=
  repeat (fill_value dt) (shape_size trailing).

Definition h5_create_dataset (f : node) (p : path) (shape : list nat)
    (maxshape : list (option nat)) (dt : np_dtype) : result node :=
  match get f p with
  | Some _ => Raise (Exn ValueError "Unable to create dataset (name already exists)")
  | None =>
      let d := MkDataset shape maxshape dt []
                 (repeat (fill_row dt (tl shape)) (hd 0 shape)) in
      match link f p (Dataset d) with
      | Some f' => OK f'
      | None => Raise (Exn TypeError "Incompatible object (Dataset) already exists")
      end
  end.

(** [d.attrs.modify(name, value)] *)
Definition attrs_modify (d : dataset) (name : string) (value : list string) : dataset :=
  MkDataset (ds_shape d) (ds_maxshape d) (ds_dtype d)
            (alist_put name value (ds_attrs d)) (ds_rows d).

(** C-order positions. *)
Fixpoint unravel (shape : list nat) (k : nat) : list nat :=
  match shape with
  | [] => []
  | _ :: rest => (k / shape_size rest) :: unravel rest (k mod shape_size rest)
  end.

Fixpoint ravel (shape idx : list nat) : nat :=
  match shape, idx with
  | _ :: rest, i :: idx' => i * shape_size rest + ravel rest idx'
  | _, _ => 0
  end.

Fixpoint in_bounds (shape idx : list nat) : bool :=
  match shape, idx with
  | [], [] => true
  | d :: rest, i :: idx' => (i <? d) && in_bounds rest idx'
  | _, _ => false
  end.

(** A row under a change of the trailing extents: an element keeps its
    multi-index; positions that did not exist hold the fill value. *)
Definition resize_row (fill : pyval) (old new : list nat) (row : list pyval) : list pyval :=
  map (fun k => let idx := unravel new k in
                if in_bounds old idx then nth (ravel old idx) row fill else fill)
      (seq 0 (shape_size new)).

Fixpoint fits (shape : list nat) (maxshape : list (option nat)) : bool :=
  match shape, maxshape with
  | [], [] => true
  | n :: shape', m :: maxshape' =>
      match m with None => true | Some mx => n <=? mx end && fits shape' maxshape'
  | _, _ => false
  end.

(** [d.resize(new_shape)]: the rank is kept and no extent exceeds its
    maximum. *)
Definition h5_resize (d : dataset) (new_shape : list nat) : result dataset :=
  if fits new_shape (ds_maxshape d) && (length new_shape =? length (ds_shape d)) then
    let fill := fill_value (ds_dtype d) in
    let old := tl (ds_shape d) in
    let new := tl new_shape in
    let n := hd 0 new_shape in
    let kept := map (resize_row fill old new) (take n (ds_rows d)) in
    OK (MkDataset new_shape (ds_maxshape d) (ds_dtype d) (ds_attrs d)
          (kept ++ repeat (repeat fill (shape_size new)) (n - length kept)))
  else Raise (Exn ValueError "Unable to set dataset extent").

(** The two forms of assignment the writer uses: [d[i] = v] and
    [d[i,:] = v]. *)
Inductive selection :=
| SelRow (i : nat)
| SelRowAll (i : nat).

(** ** The writer *)

Inductive warning :=
| WarnCouldNotSave (name : path).
   (* Could not save dataset %s. Conversion to numpy array failed *)

Record writer := MkWriter {
  _f : node;
  _i : nat;
  _chunksize : nat;
  warnings : list warning
}.

Definition set_f (f : node) (w : writer) : writer :=
  MkWriter f (_i w) (_chunksize w) (warnings w).

Definition add_warning (x : warning) (w : writer) : writer :=
  MkWriter (_f w) (_i w) (_chunksize w) (warnings w ++ [x]).

Definition log_warning (x : warning) : M writer unit :=
  modify (add_warning x).

(** [CXIWriter(filename, chunksize)]: a new, empty container. The name
    of the file and the option of compression do not bear on what the
    container holds. *)
Definition __init__ (chunksize : nat) : writer := MkWriter (Group []) 0 chunksize [].

(** [self._f[p]] *)
Definition getitem (p : path) : M writer node :=
  fun w => match get (_f w) p with
           | Some n => (OK n, w)
           | None => (Raise (Exn KeyError "Unable to open object (component not found)"), w)
           end.

(** [self._f[p]], where a dataset is expected: only a dataset has a
    shape and can be resized or assigned to. *)
Definition getdataset (p : path) : M writer dataset :=
  n <- getitem p ;;
  match n with
  | Dataset d => ret d
  | Group _ => raise (Exn AttributeError "'Group' object has no attribute 'shape'")
  end.

Definition create_group (p : path) : M writer unit :=
  fun w => match h5_create_group (_f w) p with
           | OK f' => (OK tt, set_f f' w)
           | Raise e => (Raise e, w)
           end.

Definition create_dataset (p : path) (shape : list nat)
    (maxshape : list (option nat)) (dt : np_dtype) : M writer unit :=
  fun w => match h5_create_dataset (_f w) p shape maxshape dt with
           | OK f' => (OK tt, set_f f' w)
           | Raise e => (Raise e, w)
           end.

(** Store a changed dataset back at its path. *)
Definition setdataset (p : path) (d : dataset) : M writer unit :=
  fun w => match put (_f w) p (Dataset d) with
           | Some f' => (OK tt, set_f f' w)
           | None => (Raise (Exn KeyError "Unable to open object (component not found)"), w)
           end.

(** [self._f.flush()]: what is on disk is not told apart from what the
    container holds. *)
Definition flush : M writer unit := ret tt.

(** ** [CXIWriter]

    [Dataset.__setitem__] converts the assigned value to the element type
    of the dataset and broadcasts it to the selection. The writer is
    modelled over any such assignment [h5_setitem]: it yields the new
    content of the dataset, or the class of the exception it raises; the
    shape, the maximal shape, the element type and the attributes of the
    dataset are not its to change. *)

Section Writer.

Variable py : interpreter.
Variable h5_setitem : dataset -> selection -> pyval -> exn_class + list (list pyval).

(** [self._f[name][sel] = v] *)
Definition setitem (name : path) (sel : selection) (v : pyval) : M writer unit :=
  d <- getdataset name ;;
  match h5_setitem d sel v with
  | inl c => raise (Exn c "Dataset.__setitem__")
  | inr rows =>
      setdataset name
        (MkDataset (ds_shape d) (ds_maxshape d) (ds_dtype d) (ds_attrs d) rows)
  end.

(** [self._f[name].attrs.modify("axes", [axes.encode('utf8')])] *)
Definition tag_axes (name : path) (axes : string) : M writer unit :=
  d <- getdataset name ;;
  setdataset name (attrs_modify d "axes" [axes]).

(** The element type of the dataset of a scalar (lines 78 to 83): text is
    stored with the variable-length string type. *)
Definition scalar_h5_dtype (data : pyval) : np_dtype :=
  match data with
  | PStr _ => Dvlen
  | _ => scalar_dtype data
  end.

Definition axes_of_ndim (ndim : nat) : string :=
  let axes := "experiment_identifier" in
  match ndim with
  | 1 => axes ++ ":x"
  | 2 => axes ++ ":y:x"
  | 3 => axes ++ ":z:y:x"
  | _ => axes
  end.

(** Lines 75 to 102: create the dataset of a leaf seen for the first
    time. The result is the value of [data] afterwards, or [None] when
    the loop goes on to the next key ([continue]). *)
Definition create_leaf (name : path) (data : pyval) : M writer (option pyval) :=
  chunksize <- gets _chunksize ;;
  if isscalar data then
    let maxshape := [None] in
    let shape := [chunksize] in
    let dtype := scalar_h5_dtype data in
    let axes := "experiment_identifier:value" in
    create_dataset name shape maxshape dtype ;;;
    tag_axes name axes ;;;
    ret (Some data)
  else
    data <- lift (asarray data) ;;
    dtype <- lift (get_dtype data) ;;
    if negb (py_create_ok py dtype) then
      log_warning (WarnCouldNotSave name) ;;;
      ret None
    else
      data_shape <- lift (get_shape data) ;;
      let maxshape := None :: map Some data_shape in
      let shape := chunksize :: data_shape in
      let ndim := length data_shape in
      create_dataset name shape maxshape dtype ;;;
      tag_axes name (axes_of_ndim ndim) ;;;
      ret (Some data).

(** [self._chunksize*(self._i/self._chunksize+1)]: a division by zero
    raises [ZeroDivisionError] with both interpreters (the message is
    that of Python 2). *)
Definition new_extent (chunksize i : nat) : result nat :=
  if chunksize =? 0
  then Raise (Exn ZeroDivisionError "integer division or modulo by zero")
  else OK (chunk_extent py chunksize i).

(** [t[0]] on a tuple. *)
Definition first_extent (shape : list nat) : result nat :=
  match shape with
  | s0 :: _ => OK s0
  | [] => Raise (Exn IndexError "tuple index out of range")
  end.

(** Lines 103 to 110: grow the dataset when the stack position is beyond
    its first extent. *)
Definition grow (name : path) (data : pyval) : M writer unit :=
  d <- getdataset name ;;
  extent <- lift (first_extent (ds_shape d)) ;;
  i <- gets _i ;;
  if extent <=? i then
    data_shape <- (if isscalar data then ret [] else lift (get_shape data)) ;;
    chunksize <- gets _chunksize ;;
    grown <- lift (new_extent chunksize i) ;;
    let new_shape := grown :: data_shape in
    d <- getdataset name ;;
    d' <- lift (h5_resize d new_shape) ;;
    setdataset name d'
  else ret tt.

(** Lines 111 to 115: assign the value at the stack position. *)
Definition assign (name : path) (data : pyval) : M writer unit :=
  i <- gets _i ;;
  if isscalar data then
    setitem name (SelRow i) data
  else
    v <- lift (slice_all data) ;;
    setitem name (SelRowAll i) v.

Definition store (name : path) (data : pyval) : M writer unit :=
  grow name data ;;;
  assign name data.

(** The [else] branch of the loop (lines 71 to 115), for the key [k] with
    the value [data]. *)
Definition write_leaf (group_prefix : path) (k : string) (data : pyval) : M writer unit :=
  let name := group_prefix ++ [k] in
  g <- getitem group_prefix ;;
  if negb (contains g k) then
    r <- create_leaf name data ;;
    match r with
    | None => ret tt
    | Some data => store name data
    end
  else store name data.

(** Lines 67 and 68: create the group of a nested dictionary unless the
    container has it. *)
Definition ensure_group (group_prefix : path) (k : string) : M writer unit :=
  g <- getitem group_prefix ;;
  when (negb (contains g k)) (create_group (group_prefix ++ [k])).

(** The body of the loop of [_write_without_iterate] for the key [k] and
    its value; a dictionary is written by the same loop, one group
    further down. *)
Fixpoint write_item (group_prefix : path) (k : string) (v : pyval) {struct v}
  : M writer unit :=
  match v with
  | PDict items =>
      let group_prefix_new := group_prefix ++ [k] in
      ensure_group group_prefix k ;;;
      for_each (fun kv => write_item group_prefix_new (fst kv) (snd kv)) items
  | _ => write_leaf group_prefix k v
  end.

Definition _write_without_iterate (D : list (string * pyval)) (group_prefix : path)
  : M writer unit :=
  for_each (fun kv => write_item group_prefix (fst kv) (snd kv)) D.

Definition write (D : list (string * pyval)) : M writer unit :=
  _write_without_iterate D [] ;;;
  flush ;;;
  modify (fun w => MkWriter (_f w) (_i w + 1) (_chunksize w) (warnings w)).

(** [_shrink_stacks]: every dataset below a group is resized to [i] along
    its first axis; a group is entered. The result is the outcome and the
    container as it is then: when a resize raises, the datasets visited
    before it have been resized. *)
Fixpoint _shrink_stacks (i : nat) (n : node) {struct n} : result unit * node :=
  match n with
  | Dataset d =>
      match ds_shape d with
      | [] => (Raise (Exn IndexError "pop from empty list"), n)
      | _ :: s => match h5_resize d (i :: s) with
                  | OK d' => (OK tt, Dataset d')
                  | Raise e => (Raise e, n)
                  end
      end
  | Group cs =>
      let (r, cs') :=
        (fix each (cs : list (string * node)) : result unit * list (string * node) :=
           match cs with
           | [] => (OK tt, [])
           | (k, c) :: cs' =>
               match _shrink_stacks i c with
               | (OK _, c') => let (r, rest) := each cs' in (r, (k, c') :: rest)
               | (Raise e, c') => (Raise e, (k, c') :: cs')
               end
           end) cs in
      (r, Group cs')
  end.

(** [close()]: the container as it is left on disk. *)
Definition close : M writer unit :=
  fun w => let (r, f') := _shrink_stacks (_i w) (_f w) in (r, set_f f' w).

(** Successive calls of [write]. *)
Definition write_all (records : list (list (string * pyval))) : M writer unit :=
  for_each write records.

End Writer.

(** ** A reference assignment

    [Dataset.__setitem__] converts the value to the element type of the
    dataset and stores it in the selection, a scalar filling the row.
    The conversions of the reference are those that keep the value: a
    value of the type of the dataset, a boolean among integers or
    floats, an integer among floats; an integer outside the range of
    the element type raises [OverflowError], and text with a NUL
    character cannot be stored with the variable-length string type.
    h5py converts more values than these (it truncates a float in a
    dataset of integers, for one); the reference refuses them, and
    nothing is stated of them. *)

(** Text without a NUL character. *)
Definition nul_free (s : string) : bool :=
  forallb (fun c => negb (Ascii.eqb c Ascii.zero)) (list_ascii_of_string s).

(** The conversion of one value to the element type of a dataset. *)
Definition cast (dt : np_dtype) (v : pyval) : exn_class + pyval :=
  match dt, v with
  | Dbool, PBool _ => inr v
  | Dint64, PInt z => if in_int64 z then inr v else inl OverflowError
  | Duint64, PInt z => if in_uint64 z then inr v else inl OverflowError
  | Dint64, PBool b | Duint64, PBool b => inr (PInt (bool_int b))
  | Dfloat64, PFloat _ => inr v
  | Dfloat64, PInt z =>
      if (Z.abs z <? 2 ^ 1024)%Z then inr (PFloat (Z2float z)) else inl OverflowError
  | Dfloat64, PBool b => inr (PFloat (Z2float (bool_int b)))
  | Dvlen, PStr s => if nul_free s then inr v else inl ValueError
  | Dtext, PStr _ => inr v
  | _, _ => inl TypeError
  end.

(** The conversion of the elements of a row: the first failure is
    raised. *)
Fixpoint cast_all (dt : np_dtype) (elts : list pyval) : exn_class + list pyval :=
  match elts with
  | [] => inr []
  | e :: elts' =>
      match cast dt e with
      | inl c => inl c
      | inr x => match cast_all dt elts' with
                 | inl c => inl c
                 | inr xs => inr (x :: xs)
                 end
      end
  end.

Definition h5py_setitem (d : dataset) (sel : selection) (v : pyval)
  : exn_class + list (list pyval) :=
  let trailing := tl (ds_shape d) in
  match sel with
  | SelRow i =>
      match cast (ds_dtype d) v with
      | inl c => inl c
      | inr x =>
          if i <? length (ds_rows d)
          then inr (<[i := repeat x (shape_size trailing)]> (ds_rows d))
          else inl IndexError
      end
  | SelRowAll i =>
      match asarray v with
      | Raise e => inl (exn_cls e)
      | OK (PNdarray _ shape elts) =>
          match cast_all (ds_dtype d) elts with
          | inl c => inl c
          | inr row =>
              match trailing with
              | [] => inl TypeError
              | _ :: _ =>
                  if i <? length (ds_rows d) then
                    if bool_decide (shape = trailing)
                    then inr (<[i := row]> (ds_rows d))
                    else inl TypeError
                  else inl IndexError
              end
          end
      | OK _ => inl TypeError
      end
  end.

(** ** Vocabulary of the statements *)

(** What a path of the container names: a group or a dataset. *)
Inductive obj :=
| OGroup
| ODataset (d : dataset).

Definition obj_at (f : node) (p : path) : option obj :=
  match get f p with
  | Some (Group _) => Some OGroup
  | Some (Dataset d) => Some (ODataset d)
  | None => None
  end.

Definition is_dict (v : pyval) : bool :=
  match v with
  | PDict _ => true
  | _ => false
  end.

(** [leaf_of D p v]: the record [D] holds the leaf value [v] at the path
    [p] of nested keys. *)
Inductive leaf_of : list (string * pyval) -> path -> pyval -> Prop :=
| leaf_here D k v :
    In (k, v) D -> is_dict v = false -> leaf_of D [k] v
| leaf_below D k items p v :
    In (k, PDict items) D -> leaf_of items p v -> leaf_of D (k :: p) v.

(** [numpy.asarray(v).ndim] *)
Definition ndim (v : pyval) : nat :=
  match asarray v with
  | OK (PNdarray _ shape _) => length shape
  | _ => 0
  end.


(** A leaf value for which [create_leaf] makes a dataset: a scalar, or a
    value whose array has an element type that HDF5 knows. *)
Definition coercible (py : interpreter) (v : pyval) : Prop :=
  isscalar v = true \/
  exists dt shape elts,
    asarray v = OK (PNdarray dt shape elts) /\ py_create_ok py dt = true.

(** The dataset that [create_leaf] makes for the value [v] of a leaf,
    before anything is stored in it. *)
Definition fresh_for (py : interpreter) (C : nat) (v : pyval) (d : dataset) : Prop :=
  (isscalar v = true /\
   ds_shape d = [C] /\ ds_maxshape d = [None] /\
   ds_dtype d = scalar_h5_dtype v /\
   ds_attrs d = [("axes", ["experiment_identifier:value"])])
  \/
  (isscalar v = false /\
   exists dt shape elts,
     asarray v = OK (PNdarray dt shape elts) /\ py_create_ok py dt = true /\
     ds_shape d = C :: shape /\ ds_maxshape d = None :: map Some shape /\
     ds_dtype d = dt /\
     ds_attrs d = [("axes", [axes_of_ndim (length shape)])]).

(** What one call of [write] at stack position [i] may do to a dataset:
    it keeps the attributes, the maximal shape and the element type, and
    either keeps the shape or, the first extent being at most [i], grows
    it to the extent [e] of line 108, which is beyond [i]. *)
Definition ds_evolves (e i : nat) (d d' : dataset) : Prop :=
  ds_attrs d' = ds_attrs d /\
  ds_maxshape d' = ds_maxshape d /\
  ds_dtype d' = ds_dtype d /\
  (ds_shape d' = ds_shape d \/
   exists s0 s s',
     ds_shape d = s0 :: s /\ s0 <= i /\ i < e /\
     ds_shape d' = e :: s' /\
     fits (ds_shape d') (ds_maxshape d) = true /\
     length s' = length s).

(** A property of every dataset of a container, shadowed links included. *)
Inductive all_datasets (P : dataset -> Prop) : node -> Prop :=
| all_dataset d : P d -> all_datasets P (Dataset d)
| all_group cs : Forall (fun kc => all_datasets P (snd kc)) cs ->
                 all_datasets P (Group cs).

(** A dataset that can be resized along its first axis to any extent. *)
Definition stackable (d : dataset) : Prop :=
  exists s0 s m, ds_shape d = s0 :: s /\ ds_maxshape d = None :: m /\
                 fits s m = true.

(** What one call of [write] may do to the container: a dataset evolves,
    a group stays a group, and a path that names nothing either still
    names nothing, or names a new group, or names a dataset that was
    created fresh, among those [Fresh] allows, and has evolved since;
    and the datasets stay resizable along their first axis. *)
Definition evolves (Fresh : path -> dataset -> Prop) (e i : nat) (f f' : node) : Prop :=
  (forall q,
    match obj_at f q with
    | Some (ODataset d) =>
        exists d', obj_at f' q = Some (ODataset d') /\ ds_evolves e i d d'
    | Some OGroup => obj_at f' q = Some OGroup
    | None =>
        obj_at f' q = None \/ obj_at f' q = Some OGroup \/
        exists d0 d', Fresh q d0 /\ ds_evolves e i d0 d' /\
                      obj_at f' q = Some (ODataset d')
    end) /\
  (all_datasets stackable f -> all_datasets stackable f').

(** The datasets that writing the record [D] below [prefix] may create. *)
Definition fresh_in (py : interpreter) (C : nat) (prefix : path) (D : list (string * pyval))
  : path -> dataset -> Prop :=
  fun q d0 => exists p v, q = prefix ++ p /\ leaf_of D p v /\ fresh_for py C v d0.

(** The first extent of a dataset is of the form [C * (j / C + 1)], the
    extent of line 108 on Python 2, for a stack position [j] that is at
    most [bound]. *)
Definition chunked (C bound : nat) (d : dataset) : Prop :=
  exists j s, j <= bound /\ ds_shape d = C * (j / C + 1) :: s.

(** ** Vocabulary of the proofs *)

(** A node without links below it: a dataset or an empty group. *)
Definition childless (n : node) : Prop :=
  forall k p, get n (k :: p) = None.

(** What a node is, without what it holds. *)
Definition obj_of (n : node) : obj :=
  match n with
  | Group _ => OGroup
  | Dataset d => ODataset d
  end.

(** A group, or a dataset that can be resized along its first axis. *)
Definition obj_stackable (o : obj) : Prop :=
  match o with
  | OGroup => True
  | ODataset d => stackable d
  end.

(** [f'] is [f] but for the path [p], which names [o]. *)
Definition updated (f : node) (p : path) (o : obj) (f' : node) : Prop :=
  (forall q, obj_at f' q = if bool_decide (q = p) then Some o else obj_at f q) /\
  (all_datasets stackable f -> obj_stackable o -> all_datasets stackable f').

(** The writer before and after a computation: the stack position and
    the chunk size are kept, and the container evolves. *)
Definition step_rel (py : interpreter) (Fresh : path -> dataset -> Prop)
    (s s' : writer) : Prop :=
  _i s' = _i s /\ _chunksize s' = _chunksize s /\
  evolves Fresh (chunk_extent py (_chunksize s) (_i s)) (_i s) (_f s) (_f s').

(** Every dataset of the container has a chunk for its first extent. *)
Definition all_chunked (s : writer) : Prop :=
  forall q d, obj_at (_f s) q = Some (ODataset d) -> chunked (_chunksize s) (_i s) d.

(** What the body of the loop does for one key, and what the loop does
    for a record: the container evolves, with fresh datasets for leaves
    of the record only, and no error for an existing group is raised. *)
Definition item_spec py h5_setitem (k : string) (v : pyval) : Prop :=
  forall prefix s r s',
    write_item py h5_setitem prefix k v s = (r, s') ->
    step_rel py (fresh_in py (_chunksize s) prefix [(k, v)]) s s' /\
    match r with Raise e => e <> group_exists | OK _ => True end.

(** The same, for the loop over a record. *)
Definition items_spec py h5_setitem (D : list (string * pyval)) : Prop :=
  forall prefix s r s',
    _write_without_iterate py h5_setitem D prefix s = (r, s') ->
    step_rel py (fresh_in py (_chunksize s) prefix D) s s' /\
    match r with Raise e => e <> group_exists | OK _ => True end.

(** The loop of [_shrink_stacks] over the links of a group. *)
Fixpoint shrink_children (i : nat) (cs : list (string * node))
  : result unit * list (string * node) :=
  match cs with
  | [] => (OK tt, [])
  | (k, c) :: cs' =>
      match _shrink_stacks i c with
      | (OK _, c') => let (r, rest) := shrink_children i cs' in (r, (k, c') :: rest)
      | (Raise e, c') => (Raise e, (k, c') :: cs')
      end
  end.

(** A dataset after [close]: resized to [i] along its first axis. *)
Definition resized (i : nat) (d : dataset) : dataset :=
  match h5_resize d (i :: tl (ds_shape d)) with
  | OK d' => d'
  | Raise _ => d
  end.

(** What a path names after [close]. *)
Definition shrink_obj (i : nat) (o : obj) : obj :=
  match o with
  | OGroup => OGroup
  | ODataset d => ODataset (resized i d)
  end.

(** ** Example records *)

(** The two records of the round trip of the specification. *)
Definition round_trip_records : list (list (string * pyval)) :=
  [ [("a", PInt 1); ("b", PList [PFloat 1.0; PFloat 2.0])];
    [("a", PInt 2); ("b", PList [PFloat 3.0; PFloat 4.0])] ].

(** A record of a scalar, a 2-D array and a nested group. *)
Definition frame (n : Z) : list (string * pyval) :=
  [ ("n", PInt n);
    ("img", PNdarray Dint64 [2; 2] [PInt n; PInt 0; PInt 0; PInt n]);
    ("g", PDict [("x", PFloat 0.5)]) ].

(** Three of them, more than the chunk size of the examples. *)
Definition three_frames : list (list (string * pyval)) := [frame 1; frame 2; frame 3].

(** The writer after these three records, with a chunk size of 2. *)
Definition after_three_frames : writer :=
  Eval vm_compute in snd (write_all python2 h5py_setitem three_frames (__init__ 2)).

(** The writer after the first of them, written twice. *)
Definition after_two_frames : writer :=
  Eval vm_compute in snd (write_all python2 h5py_setitem (repeat (frame 1) 2) (__init__ 2)).

(** A leaf given as a list. *)
Definition list_record : list (string * pyval) := [("b", PList [PFloat 1.0; PFloat 2.0])].



(** The writer after the record of the list. *)
Definition after_list_record : writer :=
  Eval vm_compute in snd (write python2 h5py_setitem list_record (__init__ 2)).

(** A record whose first leaf is new and whose second cannot be sliced. *)
Definition partial_record : list (string * pyval) := [("a", PInt 7); ("b", PNone)].

(** The writer after the call for this record, which raises. *)
Definition after_partial_record : writer :=
  Eval vm_compute in snd (write python2 h5py_setitem partial_record after_list_record).

(** ** Vocabulary of the further properties *)

(** A key that is the name of one link: not empty, not the [.] of the
    group itself, and without the [/] that separates the links of a
    path. The name that lines 65 and 71 make of such keys by
    concatenation, with a [/] after each, is the path of these links. *)
Definition link_name (k : string) : bool :=
  negb (String.eqb k "") && negb (String.eqb k ".") &&
  forallb (fun c => negb (Ascii.eqb c "/"%char)) (list_ascii_of_string k).

(** Every key of the value, at every depth, is the name of one link. *)
Fixpoint plain (v : pyval) : bool :=
  match v with
  | PDict items =>
      (fix plain_items (l : list (string * pyval)) : bool :=
         match l with
         | [] => true
         | (k, x) :: l' => link_name k && plain x && plain_items l'
         end) items
  | _ => true
  end.

(** The same of a record. *)
Definition plain_keys (D : list (string * pyval)) : bool := plain (PDict D).

(** [group_path D p]: the record [D] holds a nested dictionary at the
    path [p] of nested keys. *)
Inductive group_path : list (string * pyval) -> path -> Prop :=
| group_here D k items :
    In (k, PDict items) D -> group_path D [k]
| group_below D k items p :
    In (k, PDict items) D -> group_path items p -> group_path D (k :: p).

(** What the loop does beyond the evolution of the container: a dataset
    that is at the path of no leaf of the record is left as it is; after
    a run that returns, every leaf that can be coerced has a dataset
    whose first extent is beyond the stack position, and every nested
    dictionary has an object at its path. *)
Definition items_frame_spec py h5_setitem (D : list (string * pyval)) : Prop :=
  forall prefix s r s',
    _write_without_iterate py h5_setitem D prefix s = (r, s') ->
    (forall q d, obj_at (_f s) q = Some (ODataset d) ->
       (forall p v, leaf_of D p v -> q <> prefix ++ p) ->
       obj_at (_f s') q = Some (ODataset d)) /\
    (r = OK tt ->
     (forall p v, leaf_of D p v -> coercible py v ->
        exists d, obj_at (_f s') (prefix ++ p) = Some (ODataset d) /\
                  _i s < hd 0 (ds_shape d)) /\
     (forall p, group_path D p -> obj_at (_f s') (prefix ++ p) <> None)).

(** The same, for the body of the loop and one key. *)
Definition item_frame_spec py h5_setitem (k : string) (v : pyval) : Prop :=
  forall prefix s r s',
    write_item py h5_setitem prefix k v s = (r, s') ->
    (forall q d, obj_at (_f s) q = Some (ODataset d) ->
       (forall p v', leaf_of [(k, v)] p v' -> q <> prefix ++ p) ->
       obj_at (_f s') q = Some (ODataset d)) /\
    (r = OK tt ->
     (forall p v', leaf_of [(k, v)] p v' -> coercible py v' ->
        exists d, obj_at (_f s') (prefix ++ p) = Some (ODataset d) /\
                  _i s < hd 0 (ds_shape d)) /\
     (forall p, group_path [(k, v)] p -> obj_at (_f s') (prefix ++ p) <> None)).




(** The dataset of a scalar leaf with the first extent [cap]. *)
Definition scalar_dataset (dt : np_dtype) (cap : nat) (rows : list (list pyval)) : dataset :=
  MkDataset [cap] [None] dt [("axes", ["experiment_identifier:value"])] rows.





(** ** Further example records *)

(** The datasets of [n] and of [img] after the first frame, written
    twice. *)
Definition n_two_frames : dataset := scalar_dataset Dint64 2 [[PInt 1]; [PInt 1]].

Definition img_two_frames : dataset :=
  MkDataset [2; 2; 2] [None; Some 2; Some 2] Dint64
    [("axes", ["experiment_identifier:y:x"])]
    [[PInt 1; PInt 0; PInt 0; PInt 1]; [PInt 1; PInt 0; PInt 0; PInt 1]].

(** The writer after a third frame. *)
Definition after_frame_three : writer :=
  Eval vm_compute in snd (write python2 h5py_setitem (frame 3) after_two_frames).

(** The writer after the list record, written twice. *)
Definition after_two_list_records : writer :=
  Eval vm_compute in
    snd (write_all python2 h5py_setitem [list_record; list_record] (__init__ 2)).

(** Three frames, the last of which holds a leaf that the others lack. *)
Definition late_frames : list (list (string * pyval)) :=
  [frame 1; frame 2; frame 3 ++ [("late", PInt 7)]].

Definition after_late_frames : writer :=
  Eval vm_compute in snd (write_all python2 h5py_setitem late_frames (__init__ 2)).

(** The container of the three frames, closed. *)
Definition closed_three_frames : writer :=
  Eval vm_compute in snd (close after_three_frames).

End CXI.

(** * The CCP4 map reader *)

Module MapFile.

(** A view on a byte buffer, as [numpy.frombuffer] creates it: the name of
    the element type, the shape, and the bytes viewed. *)
Record ndarray := NdArray {
  nd_dtype : string;
  nd_shape : list nat;
  nd_buffer : list byte
}.

Inductive warning :=
| WarnMode (mode : Z)      (* Map file data type "MODE=%i" may not work. *)
| WarnSymmetry.            (* Omitting symmetry operations in map file. *)

Definition log_warning (w : warning) : M (list warning) unit :=
  modify (fun log => log ++ [w]).

(** A two's-complement 32-bit integer in the byte order of the machine,
    taken to be little-endian. *)
Definition int32_le (b0 b1 b2 b3 : byte) : Z :=
  let u := Z.of_N (Byte.to_N b0)
           + Z.shiftl (Z.of_N (Byte.to_N b1)) 8
           + Z.shiftl (Z.of_N (Byte.to_N b2)) 16
           + Z.shiftl (Z.of_N (Byte.to_N b3)) 24 in
  if u <? 2 ^ 31 then u else u - 2 ^ 32.

Fixpoint int32_words (buf : list byte) : list Z :=
  match buf with
  | b0 :: b1 :: b2 :: b3 :: rest => int32_le b0 b1 b2 b3 :: int32_words rest
  | _ => []
  end.

(** [numpy.frombuffer(buf, dtype="int32")] *)
Definition frombuffer_int32 (buf : list byte) : result (list Z) :=
  if (length buf mod 4 =? 0)%nat then OK (int32_words buf)
  else Raise (Exn ValueError "buffer size must be a multiple of element size").

(** [a[i]] on a one-dimensional numpy array, [i] a non-negative literal. *)
Definition array_index (a : list Z) (i : nat) : result Z :=
  match nth_error a i with
  | Some x => OK x
  | None => Raise (Exn IndexError "index is out of bounds for axis 0")
  end.

(** The size in bytes of the element type that numpy resolves a type name
    to; ["i8"] is the 8-byte integer, and ["cint32"] names no type. *)
Definition np_itemsize (name : string) : option nat :=
  if String.eqb name "i8" then Some 8%nat
  else if String.eqb name "int32" then Some 4%nat
  else if String.eqb name "float32" then Some 4%nat
  else if String.eqb name "complex64" then Some 8%nat
  else None.

(** [numpy.frombuffer(data, dtype=name)]: a flat view of [data]. *)
Definition frombuffer (data : list byte) (name : string) : result ndarray :=
  match np_itemsize name with
  | None => Raise (Exn TypeError "data type not understood")
  | Some sz =>
      if (length data mod sz =? 0)%nat
      then OK (NdArray name [(length data / sz)%nat] data)
      else Raise (Exn ValueError "buffer size must be a multiple of element size")
  end.

Definition nd_size (a : ndarray) : nat := fold_right Nat.mul 1%nat (nd_shape a).

(** [a.reshape(newshape)], numpy's [_fix_unknown_dimension]: the
    non-negative extents are multiplied; one negative extent stands for
    the extent that makes the sizes agree; an overflow of the product is
    a size mismatch. *)
Definition known_size (newshape : list Z) : Z :=
  fold_right (fun d acc => if 0 <=? d then d * acc else acc) 1 newshape.

Definition count_unknown (newshape : list Z) : nat :=
  length (List.filter (fun d => d <? 0) newshape).

Definition reshape (a : ndarray) (newshape : list Z) : result ndarray :=
  let n := Z.of_nat (nd_size a) in
  let known := known_size newshape in
  let mismatch := Exn ValueError "cannot reshape array" in
  if 2 ^ 63 <=? known then Raise mismatch
  else match count_unknown newshape with
       | O => if n =? known
              then OK (NdArray (nd_dtype a) (map Z.to_nat newshape) (nd_buffer a))
              else Raise mismatch
       | S O => if (known =? 0) || negb (n mod known =? 0) then Raise mismatch
                else OK (NdArray (nd_dtype a)
                           (map (fun d => Z.to_nat (if 0 <=? d then d else n / known))
                                newshape)
                           (nd_buffer a))
       | _ => Raise (Exn ValueError "can only specify one unknown dimension")
       end.

Definition mode_table : list string :=
  ["i8"; "int32"; "float32"; "cint32"; "complex64"; "i8"].

(** [read_map(filename)], as a function of the namespace of the module and
    of the content of the file. The state is the log of warnings. *)
Definition read_map (g : namespace) (file : list byte)
  : M (list warning) (ndarray * pyval) :=
  let header_buf := take 1024 file in
  let after_header := drop 1024 file in
  words <- lift (frombuffer_int32 header_buf) ;;
  let NCNRNS := take 3 words in
  MODE <- lift (array_index words 3) ;;
  dtype <- lift (list_index mode_table MODE) ;;
  dtype_mode <- lift (lookup_name g "dtype_mode") ;;
  known <- lift (py_in_ints dtype_mode [0; 2]) ;;
  when (negb known) (log_warning (WarnMode MODE)) ;;;
  NSYMBT <- lift (array_index words 23) ;;
  (if 0 <? NSYMBT then log_warning WarnSymmetry else ret tt) ;;;
  let data := if 0 <? NSYMBT then drop (Z.to_nat NSYMBT) after_header
              else after_header in
  flat <- lift (frombuffer data dtype) ;;
  data <- lift (reshape flat NCNRNS) ;;
  dx <- lift (lookup_name g "dx") ;;
  ret (data, dx).

(** The namespace of the module as it is written: it binds neither
    [dtype_mode] nor [dx]. *)
Definition module_namespace : namespace := [].

(** ** Vocabulary of the statements and example files *)

(** The little-endian bytes of a 32-bit word. *)
Definition int32_bytes (z : Z) : list byte :=
  map (fun k => match Byte.of_N (Z.to_N ((z mod 2 ^ 32) / 2 ^ (8 * k) mod 256)) with
                | Some b => b
                | None => x00
                end)
      [0; 1; 2; 3].

(** A header of 256 words: the extents, the mode, and NSYMBT as word 23;
    every other word is zero. *)
Definition header (NC NR NS MODE NSYMBT : Z) : list byte :=
  flat_map int32_bytes
    ([NC; NR; NS; MODE] ++ repeat 0 19 ++ [NSYMBT] ++ repeat 0 232).

(** The 32-bit floats 1.0, 2.0, ..., by their bit patterns. *)
Definition float32_bits : list Z :=
  [1065353216; 1073741824; 1077936128; 1082130432; 1084227584; 1086324736;
   1088421888; 1090519040; 1091567616; 1092616192; 1093664768; 1094713344;
   1095761920; 1096810496; 1097859072; 1098907648; 1099431936; 1099956224;
   1100480512; 1101004800; 1101529088; 1102053376; 1102577664; 1103101952;
   1103626240].

(** The bytes of the first [n] of them. *)
Definition floats (n : nat) : list byte := flat_map int32_bytes (take n float32_bits).

(** Extents (2, 3, 4), mode 2, no symmetry block, 24 floats. *)
Definition example_map : list byte := header 2 3 4 2 0 ++ floats 24.

(** The same with a payload of 25 floats. *)
Definition truncated_map : list byte := header 2 3 4 2 0 ++ floats 25.

(** The same with a payload of twice 24 floats. *)
Definition doubled_map : list byte := header 2 3 4 2 0 ++ floats 24 ++ floats 24.

(** The same header and payload, mode 1. *)
Definition mode1_map : list byte := header 2 3 4 1 0 ++ floats 24.

(** The file cut after 1020 bytes. *)
Definition short_map : list byte := take 1020 example_map.

(** A file of 96 bytes: 24 words, extents (0, 3, 4), mode 2. *)
Definition tiny_map : list byte := take 96 (header 0 3 4 2 0).

(** A namespace that binds the two names the function looks up. *)
Definition patched_namespace : namespace := [("dtype_mode", PInt 2); ("dx", PFloat 1.0)].

(** What the header of a file declares. *)
Definition header_words (file : list byte) : list Z := int32_words (take 1024 file).

(** The extents (columns, rows, sections): the words 0 to 2. *)
Definition declared_extents (file : list byte) : list Z := take 3 (header_words file).

(** The size of an element of the type that the mode, the word 3,
    selects in the table. *)
Definition element_size (file : list byte) : option nat :=
  match nth_error (header_words file) 3 with
  | Some MODE => match list_index mode_table MODE with
                 | OK dtype => np_itemsize dtype
                 | Raise _ => None
                 end
  | None => None
  end.

(** The bytes after the header and the symmetry block. *)
Definition payload (file : list byte) : list byte :=
  let NSYMBT := nth 23 (header_words file) 0 in
  if 0 <? NSYMBT then drop (Z.to_nat NSYMBT) (drop 1024 file) else drop 1024 file.

(** The product of the extents. *)
Definition product (extents : list Z) : Z := fold_right Z.mul 1 extents.

(** The byte count of the payload is not a multiple of the element size
    times the product of the extents. *)
Definition truncated_payload (file : list byte) : Prop :=
  (1024 <= length file)%nat /\
  exists sz, element_size file = Some sz /\
    ~ (Z.of_nat sz * product (declared_extents file) | Z.of_nat (length (payload file))).

(** The file holds fewer than the 1024 bytes of a header. *)
Definition short_header (file : list byte) : Prop := (length file < 1024)%nat.

(** [read_map] fails on [file] with a condition of its own for [cond]:
    it raises an exception of a class that it raises for no file outside
    [cond]. *)
Definition raises_distinctly (g : namespace) (cond : list byte -> Prop)
    (file : list byte) : Prop :=
  exists e, fst (read_map g file []) = Raise e /\
    forall file' e', fst (read_map g file' []) = Raise e' ->
                     exn_cls e' = exn_cls e -> cond file'.

(** ** Further example files *)

(** The example file with a mode outside the table, with the mode 3,
    and with the mode 0 and a payload of 24 elements of 8 bytes. *)
Definition mode6_map : list byte := header 2 3 4 6 0 ++ floats 24.

Definition mode3_map : list byte := header 2 3 4 3 0 ++ floats 24.

Definition mode0_map : list byte := header 2 3 4 0 0 ++ floats 24 ++ floats 24.

(** The first 92 bytes of the example file: 23 words. *)
Definition words23_map : list byte := take 92 example_map.

End MapFile.

(** * Proofs *)

(** ** The monad *)

Section MonadFacts.
Context {S : Type}.

Lemma bind_inv {A B} (m : M S A) (k : A -> M S B) s r s' :
  bind m k s = (r, s') ->
  (exists a s1, m s = (OK a, s1) /\ k a s1 = (r, s')) \/
  (exists e, m s = (Raise e, s') /\ r = Raise e).
Proof.
  unfold bind. destruct (m s) as [[a|e] s1]; intros H.
  - left. eauto.
  - right. inversion H; subst. eauto.
Qed.

Lemma bind_ok {A B} (m : M S A) (k : A -> M S B) s a s1 :
  m s = (OK a, s1) -> bind m k s = k a s1.
Proof. unfold bind. intros ->. reflexivity. Qed.

Lemma bind_raise {A B} (m : M S A) (k : A -> M S B) s e s1 :
  m s = (Raise e, s1) -> bind m k s = (Raise e, s1).
Proof. unfold bind. intros ->. reflexivity. Qed.

Lemma lift_inv {A} (x : result A) (s : S) r s' :
  lift x s = (r, s') -> r = x /\ s' = s.
Proof. unfold lift. intros H; inversion H; auto. Qed.

Lemma for_each_app {A} (body : A -> M S unit) xs ys s :
  for_each body (xs ++ ys) s =
  bind (for_each body xs) (fun _ => for_each body ys) s.
Proof.
  revert s. induction xs as [|x xs IH]; intros s; simpl.
  - reflexivity.
  - unfold bind. destruct (body x s) as [[[]|e] s1]; [|reflexivity].
    rewrite IH. reflexivity.
Qed.

(** A relation between the states before and after that holds of every
    iteration, whatever its outcome, holds of the loop. *)
Lemma for_each_rel {A} (R : S -> S -> Prop) (body : A -> M S unit) xs :
  (forall s, R s s) ->
  (forall s1 s2 s3, R s1 s2 -> R s2 s3 -> R s1 s3) ->
  Forall (fun x => forall s r s', body x s = (r, s') -> R s s') xs ->
  forall s r s', for_each body xs s = (r, s') -> R s s'.
Proof.
  intros Hrefl Htrans Hall. induction Hall as [|x xs Hx _ IH]; intros s r s' H; simpl in H.
  - inversion H; subst. apply Hrefl.
  - apply bind_inv in H as [(a & s1 & H1 & H2)|(e & H1 & _)].
    + eapply Htrans; [eapply Hx; eauto | eapply IH; eauto].
    + eapply Hx; eauto.
Qed.

End MonadFacts.

(** Invert a computation of the monad that is known to have run. *)
Ltac inv_bind H :=
  let a := fresh "a" in let s1 := fresh "s" in
  let H1 := fresh "Hrun" in let e := fresh "e" in
  apply bind_inv in H as [(a & s1 & H1 & H)|(e & H1 & H)].

Tactic Notation "inv_bind_as" hyp(H) ident(a) ident(s1) ident(H1) :=
  let e := fresh "e" in
  apply bind_inv in H as [(a & s1 & H1 & H)|(e & H1 & H)].

(** ** Association lists and paths *)

Import CXI.
Local Open Scope nat_scope.

Lemma alist_get_put {A} (k k' : string) (a : A) (l : list (string * A)) :
  alist_get k' (alist_put k a l) = if String.eqb k' k then Some a else alist_get k' l.
Proof.
  induction l as [|[k0 a0] l IH]; simpl.
  - destruct (String.eqb_spec k' k); reflexivity.
  - destruct (String.eqb_spec k k0) as [->|Hne]; simpl.
    + destruct (String.eqb_spec k' k0); reflexivity.
    + destruct (String.eqb_spec k' k0) as [->|Hne'].
      * destruct (String.eqb_spec k0 k); [congruence|reflexivity].
      * apply IH.
Qed.

Lemma get_app f p q :
  get f (p ++ q) = match get f p with Some n => get n q | None => None end.
Proof.
  revert f. induction p as [|k p IH]; intros f; simpl; [reflexivity|].
  destruct f as [cs|d]; [|reflexivity].
  destruct (alist_get k cs); [apply IH|reflexivity].
Qed.

Lemma get_dataset_below d k p : get (Dataset d) (k :: p) = None.
Proof. reflexivity. Qed.

Lemma childless_dataset d : childless (Dataset d).
Proof. intros k p. reflexivity. Qed.

Lemma childless_empty_group : childless (Group []).
Proof. intros k p. reflexivity. Qed.

Lemma obj_at_get f p : obj_at f p = option_map obj_of (get f p).
Proof. unfold obj_at. destruct (get f p) as [[]|]; reflexivity. Qed.

Lemma obj_at_nil f : obj_at f [] = Some (obj_of f).
Proof. destruct f; reflexivity. Qed.

(** Linking a childless node where nothing or a dataset was changes what
    that path names, and nothing else. *)
Lemma obj_at_put f p n f' :
  put f p n = Some f' ->
  childless n ->
  (obj_at f p = None \/ exists d, obj_at f p = Some (ODataset d)) ->
  forall q, obj_at f' q = if bool_decide (q = p) then Some (obj_of n) else obj_at f q.
Proof.
  revert f f'. induction p as [|k p IH]; intros f f' Hput Hn Hold q.
  - simpl in Hput. inversion Hput; subst f'.
    rewrite obj_at_nil in Hold. destruct Hold as [Hold|[d Hold]]; [discriminate|].
    destruct f as [cs|d0]; [discriminate|].
    destruct q as [|k q]; [apply obj_at_nil|].
    rewrite bool_decide_eq_false_2 by discriminate.
    unfold obj_at. rewrite Hn. reflexivity.
  - destruct f as [cs|d0]; [|discriminate].
    simpl in Hput.
    destruct q as [|k' q].
    { rewrite bool_decide_eq_false_2 by discriminate.
      destruct p; [inversion Hput; reflexivity|].
      destruct (alist_get k cs) as [c|]; [|discriminate].
      destruct (put c _ n); inversion Hput; reflexivity. }
    destruct p as [|k1 p].
    + inversion Hput; subst f'. unfold obj_at at 1. simpl.
      rewrite alist_get_put.
      destruct (String.eqb_spec k' k) as [->|Hne].
      * destruct q as [|k2 q].
        -- rewrite bool_decide_eq_true_2 by reflexivity. destruct n; reflexivity.
        -- rewrite bool_decide_eq_false_2 by congruence.
           rewrite Hn. unfold obj_at in *. simpl in *.
           destruct (alist_get k cs) as [c|]; [|reflexivity].
           destruct Hold as [Hold|[d Hold]]; destruct c as [cs'|d']; try discriminate.
           reflexivity.
      * rewrite bool_decide_eq_false_2 by congruence. reflexivity.
    + destruct (alist_get k cs) as [c|] eqn:Hc; [|discriminate].
      destruct (put c (k1 :: p) n) as [c'|] eqn:Hc'; [|discriminate].
      inversion Hput; subst f'. unfold obj_at at 1. simpl.
      rewrite alist_get_put.
      assert (Hold' : obj_at c (k1 :: p) = None \/ exists d, obj_at c (k1 :: p) = Some (ODataset d)).
      { unfold obj_at in *. simpl in Hold. rewrite Hc in Hold. exact Hold. }
      specialize (IH c c' Hc' Hn Hold' q).
      destruct (String.eqb_spec k' k) as [->|Hne].
      * unfold obj_at in IH. rewrite IH.
        repeat case_bool_decide; try congruence.
        unfold obj_at. simpl. rewrite Hc. reflexivity.
      * rewrite bool_decide_eq_false_2 by congruence.
        unfold obj_at. simpl. reflexivity.
Qed.

(** A link can be made below any group. *)
Lemma put_below_group f p k cs n :
  get f p = Some (Group cs) -> exists f', put f (p ++ [k]) n = Some f'.
Proof.
  revert f. induction p as [|k0 p IH]; intros f Hget; simpl in *.
  - inversion Hget; subst. eauto.
  - destruct f as [cs0|]; [|discriminate].
    destruct (alist_get k0 cs0) as [c|]; [|discriminate].
    destruct (IH c Hget) as [c' Hc']. rewrite Hc'.
    destruct (p ++ [k]) eqn:E; [destruct p; discriminate|]. eauto.
Qed.

(** Below a node that is there, [link] makes the link that [put] makes. *)
Lemma link_below f p g k n :
  get f p = Some g -> link f (p ++ [k]) n = put f (p ++ [k]) n.
Proof.
  revert f. induction p as [|k0 p IH]; intros f Hget; simpl in *.
  - inversion Hget; subst. destruct g; reflexivity.
  - destruct f as [cs0|]; [|discriminate].
    destruct (alist_get k0 cs0) as [c|]; [|discriminate].
    rewrite (IH c Hget).
    destruct (p ++ [k]) eqn:E; [destruct p; discriminate|]. reflexivity.
Qed.

(** A dataset can be stored back where a dataset is. *)
Lemma put_at_dataset f p d n :
  get f p = Some (Dataset d) -> exists f', put f p n = Some f'.
Proof.
  revert f. induction p as [|k p IH]; intros f Hget; simpl in *.
  - eauto.
  - destruct f as [cs|]; [|discriminate].
    destruct (alist_get k cs) as [c|] eqn:Hc; [|discriminate].
    destruct p as [|k1 p]; [eauto|].
    destruct (IH c Hget) as [c' Hc']. rewrite Hc'. eauto.
Qed.

Lemma contains_get f p g k :
  get f p = Some g ->
  contains g k = match get f (p ++ [k]) with Some _ => true | None => false end.
Proof.
  intros Hg. rewrite get_app, Hg. destruct g as [cs|d]; simpl; [|reflexivity].
  destruct (alist_get k cs); reflexivity.
Qed.

(** ** Properties of every dataset *)

Lemma all_datasets_get P f p n :
  all_datasets P f -> get f p = Some n -> all_datasets P n.
Proof.
  revert f. induction p as [|k p IH]; intros f Hall Hget; simpl in Hget.
  - inversion Hget; subst. exact Hall.
  - destruct f as [cs|d]; [|discriminate]. inversion Hall as [|cs' Hcs]; subst.
    destruct (alist_get k cs) as [c|] eqn:Hc; [|discriminate].
    apply (IH c); [|exact Hget]. clear -Hcs Hc.
    induction cs as [|[k0 c0] cs IHcs]; simpl in Hc; [discriminate|].
    inversion Hcs; subst. destruct (String.eqb k k0).
    + inversion Hc; subst. assumption.
    + auto.
Qed.

Lemma all_datasets_at P f p d :
  all_datasets P f -> obj_at f p = Some (ODataset d) -> P d.
Proof.
  intros Hall Hobj. unfold obj_at in Hobj.
  destruct (get f p) as [[cs|d0]|] eqn:Hget; inversion Hobj; subst.
  pose proof (all_datasets_get _ _ _ _ Hall Hget) as H. inversion H. assumption.
Qed.

Lemma Forall_alist_put {A} (P : string * A -> Prop) k (a : A) l :
  Forall P l -> P (k, a) -> Forall P (alist_put k a l).
Proof.
  intros Hl Ha. induction l as [|[k0 a0] l IH]; simpl.
  - constructor; [exact Ha|constructor].
  - inversion Hl; subst. destruct (String.eqb k k0); constructor; auto.
Qed.

Lemma all_datasets_put P f p n f' :
  put f p n = Some f' -> all_datasets P f -> all_datasets P n -> all_datasets P f'.
Proof.
  revert f f'. induction p as [|k p IH]; intros f f' Hput Hall Hn; simpl in Hput.
  - inversion Hput; subst. exact Hn.
  - destruct f as [cs|d]; [|discriminate]. inversion Hall as [|cs' Hcs]; subst.
    destruct p as [|k1 p].
    + inversion Hput; subst. constructor. apply Forall_alist_put; assumption.
    + destruct (alist_get k cs) as [c|] eqn:Hc; [|discriminate].
      destruct (put c (k1 :: p) n) as [c'|] eqn:Hc'; [|discriminate].
      inversion Hput; subst. constructor. apply Forall_alist_put; [assumption|].
      simpl. apply (IH c); auto.
      eapply (all_datasets_get P (Group cs) [k]); [exact Hall|].
      simpl. rewrite Hc. reflexivity.
Qed.

Lemma fits_refl s : fits s (map Some s) = true.
Proof.
  induction s as [|n s IH]; simpl; [reflexivity|].
  rewrite Nat.leb_refl. exact IH.
Qed.

Lemma stackable_same_shape d d' :
  ds_shape d' = ds_shape d -> ds_maxshape d' = ds_maxshape d ->
  stackable d -> stackable d'.
Proof.
  intros Hs Hm (s0 & s & m & E1 & E2 & Hfit). exists s0, s, m.
  rewrite Hs, Hm. auto.
Qed.

Lemma stackable_evolves C i d d' : stackable d -> ds_evolves C i d d' -> stackable d'.
Proof.
  intros (s0 & s & m & E1 & E2 & Hfit) (_ & Hm & _ & [E|(x0 & t & t' & _ & _ & _ & E & Hf & _)]).
  - exists s0, s, m. rewrite E, Hm. auto.
  - exists C, t', m. rewrite Hm, E2. split; [exact E|].
    split; [reflexivity|]. rewrite E, E2 in Hf. simpl in Hf. exact Hf.
Qed.

Lemma stackable_fresh py C v d : fresh_for py C v d -> stackable d.
Proof.
  intros [(_ & Hs & Hm & _)|(_ & dt & shape & elts & _ & _ & Hs & Hm & _)].
  - exists C, [], []. auto.
  - exists C, shape, (map Some shape). split; [exact Hs|]. split; [exact Hm|].
    apply fits_refl.
Qed.

(** ** Arithmetic of the chunks *)


Lemma chunk_same C i j : 0 < C -> j <= i -> i < C * (j / C + 1) -> i / C = j / C.
Proof.
  intros HC Hji Hlt.
  assert (j / C <= i / C) by (apply Nat.Div0.div_le_mono; lia).
  assert (i / C < j / C + 1) by (apply Nat.Div0.div_lt_upper_bound; lia).
  lia.
Qed.

Lemma chunk_first C i : 0 < C -> i < C -> C * (i / C + 1) = C.
Proof. intros HC Hi. rewrite Nat.div_small by lia. lia. Qed.


(** ** How a dataset and the container evolve *)

Lemma ds_evolves_refl C i d : ds_evolves C i d d.
Proof. unfold ds_evolves. auto. Qed.

Lemma ds_evolves_trans C i d1 d2 d3 :
  ds_evolves C i d1 d2 -> ds_evolves C i d2 d3 -> ds_evolves C i d1 d3.
Proof.
  intros (Ha & Hm & Ht & Hs) (Ha' & Hm' & Ht' & Hs').
  unfold ds_evolves. repeat split; try congruence.
  destruct Hs as [Hs|(s0 & s & s' & E1 & Hle & HC & E2 & Hfit & Hlen)];
    destruct Hs' as [Hs'|(t0 & t & t' & F1 & Hle' & HC' & F2 & Hfit' & Hlen')].
  - left. congruence.
  - right. exists t0, t, t'. rewrite <- Hs, <- Hm. repeat split; assumption.
  - right. exists s0, s, s'. rewrite Hs'. repeat split; assumption.
  - exfalso. rewrite E2 in F1. inversion F1; subst. lia.
Qed.

Lemma evolves_refl Fresh C i f : evolves Fresh C i f f.
Proof.
  split; [|auto]. intros q. destruct (obj_at f q) as [[|d]|] eqn:E; auto.
  exists d. split; [reflexivity|apply ds_evolves_refl].
Qed.

Lemma evolves_trans Fresh C i f1 f2 f3 :
  evolves Fresh C i f1 f2 -> evolves Fresh C i f2 f3 -> evolves Fresh C i f1 f3.
Proof.
  intros [H12 K12] [H23 K23]. split; [|auto].
  intros q. specialize (H12 q). specialize (H23 q).
  destruct (obj_at f1 q) as [[|d1]|].
  - rewrite H12 in H23. exact H23.
  - destruct H12 as (d2 & E2 & H12). rewrite E2 in H23.
    destruct H23 as (d3 & E3 & H23). exists d3. split; [exact E3|].
    eapply ds_evolves_trans; eauto.
  - destruct H12 as [E2|[E2|(d0 & d2 & Hf & H02 & E2)]]; rewrite E2 in H23.
    + exact H23.
    + auto.
    + destruct H23 as (d3 & E3 & H23). right. right.
      exists d0, d3. split; [exact Hf|]. split; [|exact E3].
      eapply ds_evolves_trans; eauto.
Qed.

Lemma evolves_mono (Fresh Fresh' : path -> dataset -> Prop) C i f f' :
  (forall q d, Fresh q d -> Fresh' q d) ->
  evolves Fresh C i f f' -> evolves Fresh' C i f f'.
Proof.
  intros Hsub [H K]. split; [|exact K]. intros q. specialize (H q).
  destruct (obj_at f q) as [[|d]|]; auto.
  destruct H as [H|[H|(d0 & d' & Hf & Hev & E)]]; auto.
  right. right. exists d0, d'. auto.
Qed.

Lemma updated_put f p n f' :
  put f p n = Some f' ->
  childless n ->
  (obj_at f p = None \/ exists d, obj_at f p = Some (ODataset d)) ->
  updated f p (obj_of n) f'.
Proof.
  intros Hput Hn Hold. split.
  - intros q. eapply obj_at_put; eauto.
  - intros Hall Ho. eapply all_datasets_put; eauto.
    destruct n as [cs|d]; simpl in Ho.
    + constructor. destruct cs as [|[k c] cs]; [constructor|].
      specialize (Hn k []). simpl in Hn. rewrite String.eqb_refl in Hn. discriminate.
    + constructor. exact Ho.
Qed.

Lemma updated_group Fresh C i f p f' :
  updated f p OGroup f' -> obj_at f p = None -> evolves Fresh C i f f'.
Proof.
  intros [Hup Hst] Hnone. split; [|intros; apply Hst; simpl; auto].
  intros q. rewrite (Hup q). case_bool_decide as Hq.
  - subst q. rewrite Hnone. auto.
  - destruct (obj_at f q) as [[|d]|]; auto.
    exists d. split; [reflexivity|apply ds_evolves_refl].
Qed.

Lemma updated_fresh (Fresh : path -> dataset -> Prop) C i f p d0 f' :
  updated f p (ODataset d0) f' -> obj_at f p = None -> Fresh p d0 ->
  stackable d0 -> evolves Fresh C i f f'.
Proof.
  intros [Hup Hst] Hnone Hf Hd0. split; [|intros; apply Hst; simpl; auto].
  intros q. rewrite (Hup q). case_bool_decide as Hq.
  - subst q. rewrite Hnone. right. right. exists d0, d0.
    split; [exact Hf|]. split; [apply ds_evolves_refl|reflexivity].
  - destruct (obj_at f q) as [[|d]|]; auto.
    exists d. split; [reflexivity|apply ds_evolves_refl].
Qed.

Lemma updated_dataset Fresh C i f p d d' f' :
  updated f p (ODataset d') f' -> obj_at f p = Some (ODataset d) ->
  ds_evolves C i d d' -> evolves Fresh C i f f'.
Proof.
  intros [Hup Hst] Hold Hev. split.
  - intros q. rewrite (Hup q). case_bool_decide as Hq.
    + subst q. rewrite Hold. eauto.
    + destruct (obj_at f q) as [[|d1]|]; auto.
      exists d1. split; [reflexivity|apply ds_evolves_refl].
  - intros Hall. apply Hst; [exact Hall|]. simpl.
    eapply stackable_evolves; [|exact Hev]. eapply all_datasets_at; eauto.
Qed.

Lemma step_rel_refl py Fresh s : step_rel py Fresh s s.
Proof. split; [reflexivity|]. split; [reflexivity|]. apply evolves_refl. Qed.

Lemma step_rel_trans py Fresh s1 s2 s3 :
  step_rel py Fresh s1 s2 -> step_rel py Fresh s2 s3 -> step_rel py Fresh s1 s3.
Proof.
  intros (Hi & HC & He) (Hi' & HC' & He').
  split; [congruence|]. split; [congruence|].
  rewrite Hi, HC in He'. eapply evolves_trans; eauto.
Qed.

Lemma step_rel_mono py (Fresh Fresh' : path -> dataset -> Prop) s s' :
  (forall q d, Fresh q d -> Fresh' q d) ->
  step_rel py Fresh s s' -> step_rel py Fresh' s s'.
Proof.
  intros Hsub (Hi & HC & He). split; [exact Hi|]. split; [exact HC|].
  eapply evolves_mono; eauto.
Qed.

(** ** The operations on the container *)

Lemma getitem_inv p s r s' :
  getitem p s = (r, s') ->
  s' = s /\ match r with
            | OK n => get (_f s) p = Some n
            | Raise e => get (_f s) p = None /\ e <> group_exists
            end.
Proof.
  unfold getitem. destruct (get (_f s) p); intros H; inversion H; subst.
  - auto.
  - split; [reflexivity|]. split; [reflexivity|discriminate].
Qed.

Lemma getdataset_inv p s r s' :
  getdataset p s = (r, s') ->
  s' = s /\ match r with
            | OK d => obj_at (_f s) p = Some (ODataset d)
            | Raise e => e <> group_exists
            end.
Proof.
  unfold getdataset. intros H. inv_bind H.
  - apply getitem_inv in Hrun as [-> Hget]. destruct a; inversion H; subst.
    + split; [reflexivity|discriminate].
    + split; [reflexivity|]. unfold obj_at. rewrite Hget. reflexivity.
  - apply getitem_inv in Hrun as [-> [_ Hne]]. subst. auto.
Qed.

Lemma getdataset_ok p s d :
  obj_at (_f s) p = Some (ODataset d) -> getdataset p s = (OK d, s).
Proof.
  unfold obj_at, getdataset, getitem, bind. intros H.
  destruct (get (_f s) p) as [[|d0]|]; inversion H; reflexivity.
Qed.

Lemma setdataset_ok p d d' s :
  obj_at (_f s) p = Some (ODataset d) ->
  exists f', setdataset p d' s = (OK tt, set_f f' s) /\
             updated (_f s) p (ODataset d') f'.
Proof.
  intros Hobj. assert (Hget : get (_f s) p = Some (Dataset d)).
  { unfold obj_at in Hobj. destruct (get (_f s) p) as [[|]|]; congruence. }
  destruct (put_at_dataset _ _ _ (Dataset d') Hget) as [f' Hput].
  exists f'. unfold setdataset. rewrite Hput. split; [reflexivity|].
  apply (updated_put _ _ (Dataset d')); eauto using childless_dataset.
Qed.

Lemma create_group_inv p prefix k g s r s' :
  get (_f s) prefix = Some g -> p = prefix ++ [k] ->
  create_group p s = (r, s') ->
  (s' = s /\ exists e, r = Raise e /\
     (e = group_exists -> get (_f s) p <> None)) \/
  (r = OK tt /\ obj_at (_f s) p = None /\
   exists f', s' = set_f f' s /\ updated (_f s) p OGroup f').
Proof.
  intros Hg ->. unfold create_group, h5_create_group.
  rewrite (link_below _ _ g k _ Hg). clear Hg. set (p := prefix ++ [k]).
  destruct (get (_f s) p) as [n|] eqn:Hget.
  - intros H; inversion H; subst. left. split; [reflexivity|].
    eexists; split; [reflexivity|]. discriminate.
  - destruct (put (_f s) p (Group [])) as [f'|] eqn:Hput;
      intros H; inversion H; subst.
    + right. split; [reflexivity|]. assert (Hnone : obj_at (_f s) p = None).
      { unfold obj_at. rewrite Hget. reflexivity. }
      split; [exact Hnone|]. exists f'. split; [reflexivity|].
      apply (updated_put _ _ (Group [])); eauto using childless_empty_group.
    + left. split; [reflexivity|]. eexists; split; [reflexivity|]. discriminate.
Qed.

Lemma create_dataset_inv p prefix k g shape maxshape dt s r s' :
  get (_f s) prefix = Some g -> p = prefix ++ [k] ->
  create_dataset p shape maxshape dt s = (r, s') ->
  (s' = s /\ exists e, r = Raise e /\ e <> group_exists) \/
  (r = OK tt /\ obj_at (_f s) p = None /\
   exists f' rows, s' = set_f f' s /\
     updated (_f s) p (ODataset (MkDataset shape maxshape dt [] rows)) f').
Proof.
  intros Hg ->. unfold create_dataset, h5_create_dataset.
  rewrite (link_below _ _ g k _ Hg). clear Hg. set (p := prefix ++ [k]).
  destruct (get (_f s) p) as [n|] eqn:Hget.
  - intros H; inversion H; subst. left. split; [reflexivity|].
    eexists; split; [reflexivity|]. discriminate.
  - match goal with |- context [put _ _ (Dataset ?d)] => set (d0 := d) end.
    destruct (put (_f s) p (Dataset d0)) as [f'|] eqn:Hput;
      intros H; inversion H; subst.
    + right. split; [reflexivity|]. assert (Hnone : obj_at (_f s) p = None).
      { unfold obj_at. rewrite Hget. reflexivity. }
      split; [exact Hnone|]. exists f', (ds_rows d0). split; [reflexivity|].
      apply (updated_put _ _ (Dataset d0)); eauto using childless_dataset.
    + left. split; [reflexivity|]. eexists; split; [reflexivity|]. discriminate.
Qed.

Lemma updated_twice f p o1 o2 f1 f2 :
  updated f p o1 f1 -> updated f1 p o2 f2 ->
  (obj_stackable o2 -> obj_stackable o1) -> updated f p o2 f2.
Proof.
  intros [H1 K1] [H2 K2] H21. split.
  - intros q. rewrite (H2 q), (H1 q). case_bool_decide; reflexivity.
  - auto.
Qed.

Lemma updated_at f p o f' : updated f p o f' -> obj_at f' p = Some o.
Proof. intros [H _]. rewrite (H p). rewrite bool_decide_eq_true_2; reflexivity. Qed.

Lemma set_f_f f s : _f (set_f f s) = f.
Proof. reflexivity. Qed.

(** Creating the dataset of a leaf and tagging its axes either fails in
    the creation and changes nothing, or links at [p] a dataset with the
    shape, the maximal shape, the element type and the tag given. *)
Lemma create_and_tag {A} p prefix key g shape maxshape dt axes (k : M writer A) s r s' :
  get (_f s) prefix = Some g -> p = prefix ++ [key] ->
  (create_dataset p shape maxshape dt ;;; tag_axes p axes ;;; k) s = (r, s') ->
  (s' = s /\ exists e, r = Raise e /\ e <> group_exists) \/
  (obj_at (_f s) p = None /\
   exists f' rows,
     updated (_f s) p
       (ODataset (MkDataset shape maxshape dt [("axes", [axes])] rows)) f' /\
     k (set_f f' s) = (r, s')).
Proof.
  intros Hg Hp H. inv_bind H.
  - apply (create_dataset_inv p prefix key g _ _ _ _ _ _ Hg Hp) in Hrun
      as [(_ & e & He & _)|(_ & Hnone & f1 & rows & -> & Hup)]; [discriminate|].
    right. split; [exact Hnone|]. unfold tag_axes in H.
    pose proof (updated_at _ _ _ _ Hup) as Hat.
    destruct (setdataset_ok p _ (attrs_modify (MkDataset shape maxshape dt [] rows) "axes" [axes])
                (set_f f1 s) Hat) as (f2 & Hset & Hup2).
    unfold bind in H. rewrite (getdataset_ok p (set_f f1 s) _ Hat) in H.
    rewrite Hset in H.
    exists f2, rows. split; [|exact H].
    eapply updated_twice; [eassumption|eassumption|]. simpl.
    apply stackable_same_shape; reflexivity.
  - apply (create_dataset_inv p prefix key g _ _ _ _ _ _ Hg Hp) in Hrun
      as [(-> & e' & He & Hne)|(Hr & _)]; [|discriminate].
    inversion He; subst. left. split; [reflexivity|]. eauto.
Qed.

Lemma asarray_ok v a :
  asarray v = OK a -> exists dt shape elts, a = PNdarray dt shape elts.
Proof.
  unfold asarray. intros H.
  destruct v; try (destruct (array_shape _); inversion H; eauto).
  inversion H. eauto.
Qed.

Lemma asarray_raise v e : asarray v = Raise e -> e <> group_exists.
Proof.
  unfold asarray. intros H.
  destruct v; try (destruct (array_shape _); inversion H; discriminate).
  discriminate.
Qed.

(** [create_leaf]: nothing changes and the loop goes on with a warning,
    or the creation raises and nothing changes, or the fresh dataset of
    the value is linked at [name]. *)
Lemma create_leaf_inv py name prefix k g data s r s' :
  get (_f s) prefix = Some g -> name = prefix ++ [k] ->
  create_leaf py name data s = (r, s') ->
  _i s' = _i s /\ _chunksize s' = _chunksize s /\
  ((_f s' = _f s /\ (r = OK None \/ exists e, r = Raise e /\ e <> group_exists)) \/
   (obj_at (_f s) name = None /\
    exists d0 data', r = OK (Some data') /\
      fresh_for py (_chunksize s) data d0 /\
      updated (_f s) name (ODataset d0) (_f s') /\
      isscalar data' = isscalar data /\
      (isscalar data = false ->
       exists dt shape elts, data' = PNdarray dt shape elts))).
Proof.
  intros Hg Hp. unfold create_leaf. intros H. inv_bind H; [|discriminate].
  inversion Hrun; subst a s0. clear Hrun.
  destruct (isscalar data) eqn:Hsc.
  - apply (create_and_tag name prefix k g _ _ _ _ _ _ _ _ Hg Hp) in H
      as [(-> & e & -> & Hne)|(Hnone & f' & rows & Hup & H)].
    { do 2 (split; [reflexivity|]). left. split; [reflexivity|]. right. eauto. }
    inversion H; subst. do 2 (split; [reflexivity|]). right. split; [exact Hnone|].
    match type of Hup with updated _ _ (ODataset ?d) _ => exists d, data end.
    split; [reflexivity|]. split.
    { left. simpl. auto. }
    split; [exact Hup|]. split; [exact Hsc|]. discriminate.
  - inv_bind_as H arr w1 Hrun; apply lift_inv in Hrun as [Has ->].
    2:{ subst r. do 2 (split; [reflexivity|]). left. split; [reflexivity|].
        right. eexists. split; [reflexivity|]. symmetry in Has.
        eapply asarray_raise; eauto. }
    symmetry in Has. destruct (asarray_ok _ _ Has) as (dt & shape & elts & ->).
    inv_bind H; [|discriminate].
    apply lift_inv in Hrun as [Hdt ->]. simpl in Hdt. inversion Hdt; subst a.
    destruct (py_create_ok py dt) eqn:Hpc; simpl in H.
    + inv_bind H; [|discriminate].
      apply lift_inv in Hrun as [Hsh ->]. inversion Hsh; subst a. clear Hsh Hdt.
      apply (create_and_tag name prefix k g _ _ _ _ _ _ _ _ Hg Hp) in H
        as [(-> & e & -> & Hne)|(Hnone & f' & rows & Hup & H)].
      { do 2 (split; [reflexivity|]). left. split; [reflexivity|]. right. eauto. }
      inversion H; subst. do 2 (split; [reflexivity|]). right. split; [exact Hnone|].
      match type of Hup with updated _ _ (ODataset ?d) _ =>
        exists d, (PNdarray dt shape elts) end.
      split; [reflexivity|]. split.
      { right. split; [exact Hsc|]. exists dt, shape, elts. simpl. auto 10. }
      split; [exact Hup|]. split; [reflexivity|]. eauto.
    + inv_bind H; [|discriminate].
      inversion Hrun; subst. inversion H; subst.
      do 2 (split; [reflexivity|]). left. auto.
Qed.

Lemma h5_resize_inv d new_shape d' :
  h5_resize d new_shape = OK d' ->
  ds_shape d' = new_shape /\ ds_maxshape d' = ds_maxshape d /\
  ds_dtype d' = ds_dtype d /\ ds_attrs d' = ds_attrs d /\
  fits new_shape (ds_maxshape d) = true /\
  length new_shape = length (ds_shape d).
Proof.
  unfold h5_resize.
  destruct (fits new_shape (ds_maxshape d)) eqn:Hfit; simpl; [|discriminate].
  destruct (length new_shape =? length (ds_shape d)) eqn:Hlen; [|discriminate].
  intros H; inversion H; subst; simpl. apply Nat.eqb_eq in Hlen. auto 10.
Qed.

(** [setitem] keeps all of a dataset but its content. *)
Lemma setitem_inv h5_setitem name sel v s r s' :
  setitem h5_setitem name sel v s = (r, s') ->
  (s' = s /\ exists e, r = Raise e /\ e <> group_exists) \/
  (r = OK tt /\ exists d rows f',
     obj_at (_f s) name = Some (ODataset d) /\ s' = set_f f' s /\
     updated (_f s) name
       (ODataset (MkDataset (ds_shape d) (ds_maxshape d) (ds_dtype d) (ds_attrs d) rows)) f').
Proof.
  unfold setitem. intros H. inv_bind H.
  - apply getdataset_inv in Hrun as [-> Hobj].
    destruct (h5_setitem a sel v) as [c|rows].
    + inversion H; subst. left. split; [reflexivity|].
      eexists; split; [reflexivity|]. discriminate.
    + destruct (setdataset_ok name a
        (MkDataset (ds_shape a) (ds_maxshape a) (ds_dtype a) (ds_attrs a) rows) s Hobj)
        as (f' & Hset & Hup).
      rewrite Hset in H. inversion H; subst. right. split; [reflexivity|].
      exists a, rows, f'. auto.
  - apply getdataset_inv in Hrun as [-> Hne]. subst r.
    left. split; [reflexivity|]. eauto.
Qed.

Lemma chunked_fresh py C i v d : fresh_for py C v d -> chunked C i d.
Proof.
  intros [(_ & Hs & _)|(_ & dt & shape & elts & _ & _ & Hs & _)];
    eexists 0, _; (split; [lia|]); rewrite Hs, Nat.Div0.div_0_l;
    f_equal; lia.
Qed.

Lemma chunked_evolves C i d d' :
  chunked C i d -> ds_evolves (C * (i / C + 1)) i d d' -> chunked C i d'.
Proof.
  intros (j & s & Hj & Hs) (_ & _ & _ & [E|(s0 & t & t' & _ & _ & _ & E & _)]).
  - exists j, s. rewrite E. auto.
  - exists i, t'. auto.
Qed.

(** A dataset whose first extent is beyond the stack position after a
    write has the chunk of that position for its first extent. *)
Lemma chunked_done C i d s0 s :
  0 < C -> chunked C i d -> ds_shape d = s0 :: s -> i < s0 ->
  ds_shape d = C * (i / C + 1) :: s.
Proof.
  intros HC (j & t & Hj & Hs) E Hlt. rewrite E in Hs. inversion Hs; subst.
  rewrite (chunk_same C i j); auto.
Qed.

Lemma grow_inv py name data s r s' :
  grow py name data s = (r, s') ->
  _i s' = _i s /\ _chunksize s' = _chunksize s /\
  ((_f s' = _f s /\
    match r with
    | OK _ => exists d s0 t, obj_at (_f s) name = Some (ODataset d) /\
                             ds_shape d = s0 :: t /\ _i s < s0
    | Raise e => e <> group_exists
    end) \/
   (r = OK tt /\ exists d d',
      obj_at (_f s) name = Some (ODataset d) /\
      ds_evolves (chunk_extent py (_chunksize s) (_i s)) (_i s) d d' /\
      updated (_f s) name (ODataset d') (_f s') /\
      exists s0 t, ds_shape d' = s0 :: t /\ _i s < s0)).
Proof.
  unfold grow. intros H.
  assert (Hraise : forall e, e <> group_exists ->
            _i s = _i s /\ _chunksize s = _chunksize s /\
            ((_f s = _f s /\ e <> group_exists) \/
             (@Raise unit e = OK tt /\ exists d d',
                obj_at (_f s) name = Some (ODataset d) /\
                ds_evolves (chunk_extent py (_chunksize s) (_i s)) (_i s) d d' /\
                updated (_f s) name (ODataset d') (_f s) /\
                exists s0 t, ds_shape d' = s0 :: t /\ _i s < s0))).
  { intros e He. do 2 (split; [reflexivity|]). left. auto. }
  inv_bind_as H d w1 Hrun; apply getdataset_inv in Hrun as [-> Hd];
    [|subst r; apply Hraise, Hd].
  inv_bind_as H extent w1 Hrun; apply lift_inv in Hrun as [Hext ->].
  2:{ subst r. apply Hraise. destruct (ds_shape d); inversion Hext; discriminate. }
  destruct (ds_shape d) as [|x0 t] eqn:Hshape; inversion Hext; subst extent. clear Hext.
  inv_bind_as H i w1 Hrun; [|discriminate]. inversion Hrun; subst i w1. clear Hrun.
  destruct (x0 <=? _i s) eqn:Hle.
  2:{ inversion H; subst. do 2 (split; [reflexivity|]). left.
      split; [reflexivity|]. apply Nat.leb_gt in Hle. eauto 10. }
  apply Nat.leb_le in Hle.
  inv_bind_as H data_shape w1 Hrun.
  2:{ subst r. assert (s' = s /\ e <> group_exists) as [-> He].
      { destruct (isscalar data); [discriminate|].
        apply lift_inv in Hrun as [E ->]. split; [reflexivity|].
        destruct data; inversion E; discriminate. }
      apply Hraise, He. }
  assert (w1 = s) as ->.
  { destruct (isscalar data); [inversion Hrun; reflexivity|].
    apply lift_inv in Hrun as [_ ->]. reflexivity. }
  clear Hrun.
  inv_bind_as H C w1 Hrun; [|discriminate]. inversion Hrun; subst C w1. clear Hrun.
  inv_bind_as H q w1 Hrun; apply lift_inv in Hrun as [Hq ->].
  2:{ subst r. apply Hraise. unfold new_extent in Hq.
      destruct (_chunksize s =? 0); inversion Hq. discriminate. }
  unfold new_extent in Hq. destruct (_chunksize s =? 0) eqn:HC; [discriminate|].
  inversion Hq; subst q. clear Hq. apply Nat.eqb_neq in HC.
  pose proof (extent_above py (_chunksize s) (_i s) ltac:(lia)) as Habove.
  unfold bind in H. rewrite (getdataset_ok name s d Hd) in H. fold (@bind writer) in H.
  destruct (h5_resize d _) as [d'|e] eqn:Hres; simpl in H.
  2:{ inversion H; subst r s'. apply Hraise.
      unfold h5_resize in Hres.
      destruct (_ && _); inversion Hres. discriminate. }
  apply h5_resize_inv in Hres as (Es & Em & Et & Ea & Hfit & Hlen).
  destruct (setdataset_ok name d d' s Hd) as (f' & Hset & Hup).
  rewrite Hset in H. inversion H; subst r s'. clear H.
  do 2 (split; [reflexivity|]). right. split; [reflexivity|].
  exists d, d'. split; [exact Hd|]. split.
  - unfold ds_evolves. repeat split; auto. right.
    exists x0, t, data_shape. rewrite Es, Hshape in *. simpl in Hlen.
    repeat split; auto; lia.
  - split; [exact Hup|]. rewrite Es. eexists _, _. split; [reflexivity|].
    exact Habove.
Qed.

Section WriterFacts.

Variable py : interpreter.
Variable h5_setitem : dataset -> selection -> pyval -> exn_class + list (list pyval).

Lemma assign_inv name data s r s' :
  assign h5_setitem name data s = (r, s') ->
  (s' = s /\ exists e, r = Raise e /\ e <> group_exists) \/
  (r = OK tt /\ exists d rows f',
     obj_at (_f s) name = Some (ODataset d) /\ s' = set_f f' s /\
     updated (_f s) name
       (ODataset (MkDataset (ds_shape d) (ds_maxshape d) (ds_dtype d) (ds_attrs d) rows)) f').
Proof.
  unfold assign. intros H.
  inv_bind_as H i w1 Hrun; [|discriminate]. inversion Hrun; subst i w1. clear Hrun.
  destruct (isscalar data).
  - eapply setitem_inv; eauto.
  - inv_bind_as H v w1 Hrun; apply lift_inv in Hrun as [Hv ->].
    + eapply setitem_inv; eauto.
    + subst r. left. split; [reflexivity|]. eexists; split; [reflexivity|].
      destruct data as [| | | | | | |? [|] ?]; inversion Hv; discriminate.
Qed.

(** [store]: nothing changes, or the dataset at [name] evolves; after a
    store that returns, its first extent is beyond the stack position. *)
Lemma store_inv name data s r s' :
  store py h5_setitem name data s = (r, s') ->
  _i s' = _i s /\ _chunksize s' = _chunksize s /\
  match r with Raise e => e <> group_exists | OK _ => True end /\
  (((exists e, r = Raise e) /\ _f s' = _f s) \/
   exists d d',
     obj_at (_f s) name = Some (ODataset d) /\
     ds_evolves (chunk_extent py (_chunksize s) (_i s)) (_i s) d d' /\
     updated (_f s) name (ODataset d') (_f s') /\
     (r = OK tt -> exists s0 t, ds_shape d' = s0 :: t /\ _i s < s0)).
Proof.
  unfold store. intros H. inv_bind_as H u w1 Hrun.
  - apply grow_inv in Hrun as (Hi & HC & Hg).
    apply assign_inv in H
      as [(-> & e & -> & Hne)|(-> & d1 & rows & f' & Hd1 & -> & Hup)].
    + split; [exact Hi|]. split; [exact HC|]. split; [exact Hne|].
      destruct Hg as [(Hf & _)|(_ & d & d' & Hd & Hev & Hup & _)].
      * left. eauto.
      * right. exists d, d'. split; [exact Hd|]. split; [exact Hev|].
        split; [exact Hup|]. intros; discriminate.
    + split; [exact Hi|]. split; [exact HC|]. split; [exact I|]. right.
      set (d2 := MkDataset (ds_shape d1) (ds_maxshape d1) (ds_dtype d1) (ds_attrs d1) rows) in *.
      assert (H12 : forall C i, ds_evolves C i d1 d2) by (intros; unfold ds_evolves; auto).
      destruct Hg as [(Hf & d & x0 & t & Hd & Hs & Hlt)|(_ & d & d' & Hd & Hev & Hup' & x0 & t & Hs & Hlt)].
      * rewrite Hf in *. rewrite Hd in Hd1. inversion Hd1; subst d1.
        exists d, d2. split; [exact Hd|]. split; [apply H12|].
        split; [exact Hup|]. intros _. exists x0, t. auto.
      * rewrite (updated_at _ _ _ _ Hup') in Hd1. inversion Hd1; subst d1.
        exists d, d2. split; [exact Hd|]. split.
        { eapply ds_evolves_trans; eauto. }
        split; [eapply updated_twice; [eassumption|eassumption|]; simpl;
                apply stackable_same_shape; reflexivity|].
        intros _. exists x0, t. auto.
  - subst r. apply grow_inv in Hrun as (Hi & HC & [(Hf & Hne)|(Hr & _)]); [|discriminate].
    repeat split; auto. left. eauto.
Qed.

(** The effect of the [else] branch of the loop, whatever its outcome:
    the container evolves, a dataset is created for this leaf only, and
    no call of [create_group] fails for an existing name. *)
Lemma write_leaf_inv prefix k data s r s' :
  write_leaf py h5_setitem prefix k data s = (r, s') ->
  step_rel py (fun q d0 => q = prefix ++ [k] /\ fresh_for py (_chunksize s) data d0) s s' /\
  match r with Raise e => e <> group_exists | OK _ => True end.
Proof.
  unfold write_leaf. set (name := prefix ++ [k]). intros H.
  inv_bind_as H g w1 Hrun; apply getitem_inv in Hrun as [-> Hg].
  2:{ subst r. split; [apply step_rel_refl|apply Hg]. }
  assert (Hstore : forall data' s1 (Fresh : path -> dataset -> Prop),
            store py h5_setitem name data' s1 = (r, s') ->
            (_i s1 = _i s -> _chunksize s1 = _chunksize s ->
             evolves Fresh (chunk_extent py (_chunksize s) (_i s)) (_i s)
               (_f s1) (_f s')) /\
            match r with Raise e => e <> group_exists | OK _ => True end /\
            _i s' = _i s1 /\ _chunksize s' = _chunksize s1).
  { intros data' s1 Fresh Hst.
    apply store_inv in Hst as (Hi & HC & Hne & Hcases).
    split; [|split; [exact Hne|split; [exact Hi|exact HC]]].
    intros Ei EC. rewrite <- Ei, <- EC.
    destruct Hcases as [(_ & ->)|(d & d' & Hd & Hev & Hup & _)].
    + apply evolves_refl.
    + eapply updated_dataset; eauto. }
  destruct (contains g k) eqn:Hin; simpl in H.
  - apply Hstore with (Fresh := fun q d0 => q = name /\ fresh_for py (_chunksize s) data d0) in H
      as (Hev & Hne & Hi & HC).
    split; [|exact Hne].
    split; [exact Hi|]. split; [exact HC|]. apply Hev; reflexivity.
  - inv_bind_as H dat w1 Hrun;
      apply (create_leaf_inv py name prefix k g _ _ _ _ Hg eq_refl) in Hrun
        as (Hi & HC & Hcases).
    + destruct Hcases as [(Hf & [E|(e & E & _)])|(Hnone & d0 & data' & E & Hfresh & Hup & _)];
        try discriminate.
      * inversion E; subst dat. inversion H; subst r s'.
        split; [|exact I].
        split; [exact Hi|]. split; [exact HC|]. rewrite Hf. apply evolves_refl.
      * inversion E; subst dat.
        apply Hstore with (Fresh := fun q d1 => q = name /\ fresh_for py (_chunksize s) data d1) in H
          as (Hev & Hne & Hi' & HC').
        split; [|exact Hne].
        split; [congruence|]. split; [congruence|].
        eapply evolves_trans; [|apply Hev; assumption].
        eapply updated_fresh; eauto using stackable_fresh.
    + subst r.
      destruct Hcases as [(Hf & [E|(e' & E & Hne)])|(_ & d0 & data' & E & _)];
        try discriminate.
      inversion E; subst e'.
      split; [|exact Hne].
      split; [exact Hi|]. split; [exact HC|]. rewrite Hf. apply evolves_refl.
Qed.

Lemma ensure_group_inv Fresh prefix k s r s' :
  ensure_group prefix k s = (r, s') ->
  step_rel py Fresh s s' /\
  match r with Raise e => e <> group_exists | OK _ => True end.
Proof.
  unfold ensure_group. intros H.
  inv_bind_as H g w1 Hrun; apply getitem_inv in Hrun as [-> Hg].
  2:{ subst r. split; [apply step_rel_refl|apply Hg]. }
  pose proof (contains_get _ _ _ k Hg) as Hin.
  destruct (contains g k); simpl in H.
  - inversion H; subst. split; [apply step_rel_refl|exact I].
  - apply (create_group_inv _ prefix k g _ _ _ Hg eq_refl) in H
      as [(-> & e & -> & He)|(-> & Hnone & f' & -> & Hup)].
    + split; [apply step_rel_refl|]. intros ->.
      apply He; [reflexivity|]. destruct (get (_f s) (prefix ++ [k])); congruence.
    + split; [|exact I]. split; [reflexivity|]. split; [reflexivity|]. simpl.
      eapply updated_group; eauto.
Qed.

End WriterFacts.

(** ** Records *)

Lemma pyval_dict_ind (P : pyval -> Prop) :
  (forall v, is_dict v = false -> P v) ->
  (forall items, Forall (fun kv => P (snd kv)) items -> P (PDict items)) ->
  forall v, P v.
Proof.
  intros Hleaf Hdict. fix IH 1. intros v.
  destruct v; try (apply Hleaf; reflexivity).
  apply Hdict. revert items. fix IHitems 1.
  intros [|[k v] items]; constructor; [apply IH|apply IHitems].
Qed.

Lemma leaf_of_incl D D' p v :
  (forall kv, In kv D -> In kv D') -> leaf_of D p v -> leaf_of D' p v.
Proof.
  intros Hincl H. destruct H.
  - apply leaf_here; auto.
  - eapply leaf_below; eauto.
Qed.

Lemma leaf_of_cons kv D p v :
  leaf_of (kv :: D) p v -> leaf_of [kv] p v \/ leaf_of D p v.
Proof.
  intros H. inversion H; subst.
  - destruct H0 as [->|Hin].
    + left. apply leaf_here; [left; reflexivity|assumption].
    + right. apply leaf_here; assumption.
  - destruct H0 as [->|Hin].
    + left. eapply leaf_below; [left; reflexivity|eassumption].
    + right. eapply leaf_below; eassumption.
Qed.

Lemma leaf_of_nil p v : ~ leaf_of [] p v.
Proof. intros H. inversion H; subst; contradiction. Qed.

Lemma leaf_of_single_leaf k v p v' :
  is_dict v = false -> leaf_of [(k, v)] p v' -> p = [k] /\ v' = v.
Proof.
  intros Hv H. inversion H; subst.
  - destruct H0 as [E|[]]. inversion E; subst. auto.
  - destruct H0 as [E|[]]. inversion E; subst. discriminate.
Qed.

Lemma leaf_of_single_dict k items p v' :
  leaf_of [(k, PDict items)] p v' -> exists p', p = k :: p' /\ leaf_of items p' v'.
Proof.
  intros H. inversion H; subst.
  - destruct H0 as [E|[]]. inversion E; subst. discriminate.
  - destruct H0 as [E|[]]. inversion E; subst. eauto.
Qed.

(** ** The loop of [_write_without_iterate] *)

Lemma fresh_in_incl py C prefix D D' q d :
  (forall kv, In kv D -> In kv D') -> fresh_in py C prefix D q d -> fresh_in py C prefix D' q d.
Proof.
  intros Hincl (p & v & E & Hl & Hf). exists p, v. eauto using leaf_of_incl.
Qed.

Lemma items_from_item py h5_setitem D :
  Forall (fun kv => item_spec py h5_setitem (fst kv) (snd kv)) D -> items_spec py h5_setitem D.
Proof.
  unfold _write_without_iterate, items_spec.
  induction 1 as [|[k v] D Hkv _ IH]; intros prefix s r s' H; simpl in H.
  - inversion H; subst. split; [apply step_rel_refl|exact I].
  - fold (for_each (fun kv => write_item py h5_setitem prefix (fst kv) (snd kv))) in H.
    inv_bind_as H u s1 Hrun.
    + destruct u. apply Hkv in Hrun as (Hstep1 & _). simpl in *.
      pose proof Hstep1 as (Hi & HC & _).
      apply IH in H as (Hstep2 & Hne). rewrite HC in Hstep2.
      split; [|exact Hne].
      eapply step_rel_trans; eapply step_rel_mono; try eassumption;
        intros q d; apply fresh_in_incl; intros kv; simpl; tauto.
    + subst r. apply Hkv in Hrun as (Hstep1 & Hne). simpl in *.
      split; [|exact Hne].
      eapply step_rel_mono; [|exact Hstep1].
      intros q d; apply fresh_in_incl; intros kv; simpl; tauto.
Qed.

Lemma write_item_spec py h5_setitem k v : item_spec py h5_setitem k v.
Proof.
  revert k. induction v as [v Hv|items IH] using pyval_dict_ind; intros k prefix s r s' H.
  - assert (Hw : write_leaf py h5_setitem prefix k v s = (r, s')).
    { destruct v; try exact H. discriminate. }
    clear H. apply write_leaf_inv in Hw as (Hstep & Hne).
    split; [|exact Hne].
    eapply step_rel_mono; [|exact Hstep]. intros q d [-> Hf].
    exists [k], v. split; [reflexivity|]. split; [|exact Hf].
    apply leaf_here; [left; reflexivity|exact Hv].
  - simpl in H.
    assert (Hitems : items_spec py h5_setitem items).
    { apply items_from_item. eapply Forall_impl; [exact IH|].
      intros [k' v'] Hk'. simpl in *. apply Hk'. }
    assert (Hsub : forall C q d, fresh_in py C (prefix ++ [k]) items q d ->
                                 fresh_in py C prefix [(k, PDict items)] q d).
    { intros C q d (p & v & E & Hl & Hf). exists (k :: p), v.
      split; [rewrite E, <- app_assoc; reflexivity|]. split; [|exact Hf].
      eapply leaf_below; [left; reflexivity|exact Hl]. }
    inv_bind_as H u s1 Hrun.
    + apply (ensure_group_inv py (fresh_in py (_chunksize s) prefix [(k, PDict items)])) in Hrun
        as (Hstep1 & _).
      pose proof Hstep1 as (Hi & HC & _).
      apply Hitems in H as (Hstep2 & Hne). rewrite HC in Hstep2.
      split; [|exact Hne].
      eapply step_rel_trans; [exact Hstep1|].
      eapply step_rel_mono; [|exact Hstep2]. apply Hsub.
    + subst r.
      apply (ensure_group_inv py (fresh_in py (_chunksize s) prefix [(k, PDict items)])) in Hrun
        as (Hstep1 & Hne).
      split; [exact Hstep1|exact Hne].
Qed.

Lemma write_without_iterate_spec py h5_setitem D : items_spec py h5_setitem D.
Proof.
  apply items_from_item. apply Forall_forall. intros [k v] _. apply write_item_spec.
Qed.

(** ** [write] and successive writes *)

Section WriteFacts.

Variable py : interpreter.
Variable h5_setitem : dataset -> selection -> pyval -> exn_class + list (list pyval).

Lemma write_inv D s r s' :
  write py h5_setitem D s = (r, s') ->
  _chunksize s' = _chunksize s /\
  evolves (fresh_in py (_chunksize s) [] D) (chunk_extent py (_chunksize s) (_i s)) (_i s)
    (_f s) (_f s') /\
  match r with
  | OK _ => _i s' = _i s + 1
  | Raise e => _i s' = _i s /\ e <> group_exists
  end.
Proof.
  unfold write. intros H. inv_bind_as H u s1 Hrun.
  - destruct u. apply write_without_iterate_spec in Hrun as ((Hi & HC & Hev) & _).
    inversion H; subst r s'. simpl. split; [exact HC|]. split; [exact Hev|]. lia.
  - subst r. apply write_without_iterate_spec in Hrun as ((Hi & HC & Hev) & Hne).
    auto.
Qed.

(** After successive writes that return, the stack position has advanced
    by their number, and datasets that can be resized along their first
    axis still can. *)
Lemma write_all_inv rs : forall s s',
  write_all py h5_setitem rs s = (OK tt, s') ->
  _i s' = _i s + length rs /\ _chunksize s' = _chunksize s /\
  (all_datasets stackable (_f s) -> all_datasets stackable (_f s')).
Proof.
  unfold write_all. induction rs as [|D rs IH]; intros s s' H; simpl in H.
  - inversion H; subst. simpl. split; [lia|]. auto.
  - fold (for_each (write py h5_setitem)) in H. inv_bind_as H u s1 Hrun; [|discriminate].
    destruct u. apply write_inv in Hrun as (HC1 & (_ & Hst1) & Hi1).
    apply IH in H as (Hi & HC' & Hst'). simpl.
    split; [lia|]. split; [congruence|]. auto.
Qed.

End WriteFacts.

Lemma all_chunked_init C : all_chunked (__init__ C).
Proof.
  intros q d H. unfold obj_at in H. destruct q; simpl in H; discriminate.
Qed.


(** ** [close] *)

Lemma shrink_group i cs :
  _shrink_stacks i (Group cs) =
  let (r, cs') := shrink_children i cs in (r, Group cs').
Proof.
  simpl. match goal with |- (let (_, _) := ?a in _) = (let (_, _) := ?b in _) =>
    assert (E : a = b) end.
  { induction cs as [|[k c] cs IH]; simpl; [reflexivity|].
    destruct (_shrink_stacks i c) as [[u|e] c']; [|reflexivity].
    rewrite IH. reflexivity. }
  rewrite E. reflexivity.
Qed.




Lemma shrink_children_get i cs cs' k :
  shrink_children i cs = (OK tt, cs') ->
  match alist_get k cs with
  | None => alist_get k cs' = None
  | Some c => exists c', alist_get k cs' = Some c' /\ _shrink_stacks i c = (OK tt, c')
  end.
Proof.
  revert cs'. induction cs as [|[k0 c0] cs IH]; intros cs' H; simpl in H.
  - inversion H; subst. reflexivity.
  - destruct (_shrink_stacks i c0) as [[[]|e] c0'] eqn:E0; [|discriminate].
    destruct (shrink_children i cs) as [r rest] eqn:Er.
    inversion H; subst r cs'. simpl. destruct (String.eqb k k0).
    + eauto.
    + apply IH. reflexivity.
Qed.

Lemma shrink_obj_at i n n' :
  _shrink_stacks i n = (OK tt, n') ->
  forall q, obj_at n' q = option_map (shrink_obj i) (obj_at n q).
Proof.
  intros H q. revert n n' H. induction q as [|k q IH]; intros n n' H.
  - rewrite !obj_at_nil. simpl. f_equal. destruct n as [cs|d].
    + rewrite shrink_group in H. destruct (shrink_children i cs); inversion H.
      reflexivity.
    + simpl in H |- *. unfold resized.
      destruct (ds_shape d) as [|s0 s]; [discriminate|].
      simpl. destruct (h5_resize d (i :: s)); inversion H. reflexivity.
  - destruct n as [cs|d].
    + rewrite shrink_group in H.
      destruct (shrink_children i cs) as [r cs'] eqn:E; inversion H; subst r n'.
      pose proof (shrink_children_get i cs cs' k E) as Hk.
      unfold obj_at at 1 2. simpl.
      destruct (alist_get k cs) as [c|].
      * destruct Hk as (c' & -> & Hc). apply (IH c c' Hc).
      * rewrite Hk. reflexivity.
    + simpl in H. destruct (ds_shape d); [discriminate|].
      destruct (h5_resize d _); inversion H. reflexivity.
Qed.


(** ** What a write touches and what it stores *)

Section FrameFacts.

Variable py : interpreter.
Variable h5_setitem : dataset -> selection -> pyval -> exn_class + list (list pyval).

Lemma updated_other f p o f' q : updated f p o f' -> q <> p -> obj_at f' q = obj_at f q.
Proof.
  intros [H _] Hq. rewrite (H q). rewrite bool_decide_eq_false_2; auto.
Qed.

(** [create_leaf] goes on to the next key only for a value that cannot
    be coerced. *)
Lemma create_leaf_skip name prefix k g data s s' :
  get (_f s) prefix = Some g -> name = prefix ++ [k] ->
  create_leaf py name data s = (OK None, s') -> ~ coercible py data.
Proof.
  intros Hg Hp. unfold create_leaf. intros H Hco.
  inv_bind H; [|discriminate]. inversion Hrun; subst a s0. clear Hrun.
  destruct (isscalar data) eqn:Hsc.
  - apply (create_and_tag name prefix k g _ _ _ _ _ _ _ _ Hg Hp) in H
      as [(_ & e & He & _)|(_ & f' & rows & _ & H)]; discriminate.
  - destruct Hco as [Hco|(dt & shape & elts & Has & Hpc)]; [congruence|].
    rewrite Has in H. inv_bind H; [|discriminate].
    apply lift_inv in Hrun as [E ->]. inversion E; subst a. clear E.
    inv_bind H; [|discriminate].
    apply lift_inv in Hrun as [E ->]. simpl in E. inversion E; subst a. clear E.
    rewrite Hpc in H. simpl in H.
    inv_bind H; [|discriminate].
    apply lift_inv in Hrun as [E ->]. clear E.
    apply (create_and_tag name prefix k g _ _ _ _ _ _ _ _ Hg Hp) in H
      as [(_ & e & He & _)|(_ & f' & rows & _ & H)]; discriminate.
Qed.

(** The [else] branch of the loop touches the path of its key only, and
    when it returns for a value that can be coerced, a dataset is there. *)
Lemma write_leaf_frame prefix k data s r s' :
  write_leaf py h5_setitem prefix k data s = (r, s') ->
  (forall q, q <> prefix ++ [k] -> obj_at (_f s') q = obj_at (_f s) q) /\
  (r = OK tt -> coercible py data ->
   exists d, obj_at (_f s') (prefix ++ [k]) = Some (ODataset d) /\
             _i s < hd 0 (ds_shape d)).
Proof.
  unfold write_leaf. set (name := prefix ++ [k]). intros H.
  inv_bind_as H g w1 Hrun; apply getitem_inv in Hrun as [-> Hg].
  2:{ subst r. split; [reflexivity|discriminate]. }
  assert (Hstore : forall data' s1,
            store py h5_setitem name data' s1 = (r, s') ->
            (forall q, q <> name -> obj_at (_f s') q = obj_at (_f s1) q) /\
            (r = OK tt -> exists d, obj_at (_f s') name = Some (ODataset d) /\
                                    _i s1 < hd 0 (ds_shape d))).
  { intros data' s1 Hst.
    apply store_inv in Hst as (_ & _ & _ & [((e & ->) & Hf)|(d & d' & Hd & _ & Hup & Hbeyond)]).
    - rewrite Hf. split; [reflexivity|discriminate].
    - split; [intros q Hq; eapply updated_other; eauto|].
      intros Hr. exists d'. split; [eapply updated_at; eauto|].
      destruct (Hbeyond Hr) as (x0 & t & -> & Hlt). exact Hlt. }
  destruct (contains g k) eqn:Hin; simpl in H.
  - apply Hstore in H as [Hfr Hds]. split; [exact Hfr|]. intros Hr _. auto.
  - inv_bind_as H dat w1 Hrun.
    + pose proof Hrun as Hrun'.
      apply (create_leaf_inv py name prefix k g _ _ _ _ Hg eq_refl) in Hrun
        as (Hi & _ & [(Hf & [E|(e & E & _)])|(_ & d0 & data' & E & _ & Hup & _)]);
        try discriminate.
      * inversion E; subst dat. inversion H; subst r s'. rewrite Hf.
        split; [reflexivity|]. intros _ Hco. exfalso.
        eapply (create_leaf_skip name prefix k g); eauto.
      * inversion E; subst dat. apply Hstore in H as [Hfr Hds].
        split; [|intros Hr _; rewrite <- Hi; auto].
        intros q Hq. rewrite (Hfr q Hq). eapply updated_other; eauto.
    + subst r.
      apply (create_leaf_inv py name prefix k g _ _ _ _ Hg eq_refl) in Hrun
        as (_ & _ & [(Hf & _)|(_ & d0 & data' & E & _)]); [|discriminate].
      rewrite Hf. split; [reflexivity|discriminate].
Qed.

(** [ensure_group] touches the path of the group only, where it leaves
    what there is; when it returns, there is an object. *)
Lemma ensure_group_frame prefix k s r s' :
  ensure_group prefix k s = (r, s') ->
  (forall q, q <> prefix ++ [k] -> obj_at (_f s') q = obj_at (_f s) q) /\
  (obj_at (_f s) (prefix ++ [k]) <> None ->
   obj_at (_f s') (prefix ++ [k]) = obj_at (_f s) (prefix ++ [k])) /\
  (r = OK tt -> obj_at (_f s') (prefix ++ [k]) <> None).
Proof.
  unfold ensure_group. intros H.
  inv_bind_as H g w1 Hrun; apply getitem_inv in Hrun as [-> Hg].
  2:{ subst r. split; [reflexivity|]. split; [reflexivity|discriminate]. }
  pose proof (contains_get _ _ _ k Hg) as Hin.
  destruct (contains g k); simpl in H.
  - inversion H; subst. split; [reflexivity|]. split; [reflexivity|]. intros _.
    unfold obj_at. destruct (get (_f s') (prefix ++ [k])) as [[|]|]; discriminate.
  - apply (create_group_inv _ prefix k g _ _ _ Hg eq_refl) in H
      as [(-> & e & -> & He)|(-> & Hnone & f' & -> & Hup)].
    + split; [reflexivity|]. split; [reflexivity|discriminate].
    + rewrite set_f_f. split; [intros q Hq; eapply updated_other; eauto|].
      split; [congruence|]. intros _. rewrite (updated_at _ _ _ _ Hup). discriminate.
Qed.

Lemma group_path_cons kv D p :
  group_path (kv :: D) p -> group_path [kv] p \/ group_path D p.
Proof.
  intros H. inversion H; subst.
  - destruct H0 as [->|Hin].
    + left. eapply group_here. left. reflexivity.
    + right. eapply group_here. eassumption.
  - destruct H0 as [->|Hin].
    + left. eapply group_below; [left; reflexivity|eassumption].
    + right. eapply group_below; eassumption.
Qed.

Lemma group_path_single k v p :
  group_path [(k, v)] p ->
  exists items, v = PDict items /\ (p = [k] \/ exists p', p = k :: p' /\ group_path items p').
Proof.
  intros H. inversion H; subst.
  - destruct H0 as [E|[]]. inversion E; subst. eauto.
  - destruct H0 as [E|[]]. inversion E; subst. eauto 10.
Qed.

(** What is there stays there through any part of the loop. *)
Lemma step_rel_keeps Fresh s s' q :
  step_rel py Fresh s s' -> obj_at (_f s) q <> None -> obj_at (_f s') q <> None.
Proof.
  intros (_ & _ & Hev & _) Hq. specialize (Hev q).
  destruct (obj_at (_f s) q) as [[|d]|]; [| |congruence].
  - rewrite Hev. discriminate.
  - destruct Hev as (d' & -> & _). discriminate.
Qed.

Lemma step_rel_keeps_stored Fresh s s' q d :
  step_rel py Fresh s s' -> obj_at (_f s) q = Some (ODataset d) ->
  _i s < hd 0 (ds_shape d) ->
  exists d', obj_at (_f s') q = Some (ODataset d') /\ _i s < hd 0 (ds_shape d').
Proof.
  intros (_ & _ & Hev & _) Hq Hlt. specialize (Hev q). rewrite Hq in Hev.
  destruct Hev as (d' & E & _ & _ & _ & [Hs|(s0 & t & t' & _ & _ & Hbeyond & Hs & _)]).
  - exists d'. rewrite Hs. auto.
  - exists d'. rewrite Hs. simpl. split; [exact E|exact Hbeyond].
Qed.

Lemma items_frame_from_item D :
  Forall (fun kv => item_frame_spec py h5_setitem (fst kv) (snd kv)) D ->
  items_frame_spec py h5_setitem D.
Proof.
  unfold items_frame_spec.
  induction 1 as [|[k v] D Hkv _ IH]; intros prefix s r s' H.
  - unfold _write_without_iterate in H. simpl in H. inversion H; subst.
    split; [auto|]. intros _. split.
    + intros p v Hl. destruct (leaf_of_nil _ _ Hl).
    + intros p Hp. inversion Hp; subst; contradiction.
  - unfold _write_without_iterate in H. simpl in H.
    fold (for_each (fun kv => write_item py h5_setitem prefix (fst kv) (snd kv))) in H.
    fold (_write_without_iterate py h5_setitem D prefix) in H.
    inv_bind_as H u s1 Hrun.
    + destruct u. pose proof (write_without_iterate_spec py h5_setitem D _ _ _ _ H)
        as (Hstep2 & _).
      pose proof (write_item_spec py h5_setitem k v _ _ _ _ Hrun) as ((Hi1 & _) & _).
      apply Hkv in Hrun as (Hfr1 & Hok1). simpl in *.
      apply IH in H as (Hfr2 & Hok2).
      split.
      * intros q d Hd Hq. apply Hfr2.
        -- apply Hfr1; [exact Hd|]. intros p v' Hl. apply (Hq p v').
           eapply leaf_of_incl; [|exact Hl]. intros kv [->|[]]. left. reflexivity.
        -- intros p v' Hl. apply (Hq p v').
           eapply leaf_of_incl; [|exact Hl]. intros kv Hin. right. exact Hin.
      * intros Hr. destruct (Hok1 eq_refl) as (Hst1 & Hgr1).
        destruct (Hok2 Hr) as (Hst2 & Hgr2). split.
        -- intros p v' Hl Hco. apply leaf_of_cons in Hl as [Hl|Hl].
           ++ destruct (Hst1 p v' Hl Hco) as (d1 & Hd1 & Hlt1).
              rewrite <- Hi1 in *. eapply step_rel_keeps_stored; eauto.
           ++ rewrite <- Hi1. eauto.
        -- intros p Hp. apply group_path_cons in Hp as [Hp|Hp].
           ++ eapply step_rel_keeps; eauto.
           ++ eauto.
    + subst r. apply Hkv in Hrun as (Hfr1 & _). simpl in *.
      split; [|discriminate].
      intros q d Hd Hq. apply Hfr1; [exact Hd|]. intros p v' Hl. apply (Hq p v').
      eapply leaf_of_incl; [|exact Hl]. intros kv [->|[]]. left. reflexivity.
Qed.

Lemma write_item_frame k v : item_frame_spec py h5_setitem k v.
Proof.
  revert k. induction v as [v Hv|items IH] using pyval_dict_ind; intros k prefix s r s' H.
  - assert (Hw : write_leaf py h5_setitem prefix k v s = (r, s')).
    { destruct v; try exact H. discriminate. }
    clear H. apply write_leaf_frame in Hw as (Hfr & Hst). split.
    + intros q d Hd Hq. rewrite Hfr; [exact Hd|]. apply (Hq [k] v).
      apply leaf_here; [left; reflexivity|exact Hv].
    + intros Hr. split.
      * intros p v' Hl Hco. apply leaf_of_single_leaf in Hl as [-> ->]; auto.
      * intros p Hp. apply group_path_single in Hp as (items & -> & _). discriminate.
  - simpl in H.
    assert (Hitems : items_frame_spec py h5_setitem items).
    { apply items_frame_from_item. eapply Forall_impl; [exact IH|].
      intros [k' v'] Hk'. simpl in *. apply Hk'. }
    inv_bind_as H u s1 Hrun.
    + destruct u. fold (_write_without_iterate py h5_setitem items (prefix ++ [k])) in H.
      pose proof (write_without_iterate_spec py h5_setitem items _ _ _ _ H) as (Hstep2 & _).
      pose proof (ensure_group_inv py (fun _ _ => False) _ _ _ _ _ Hrun) as ((Hi1 & _) & _).
      apply ensure_group_frame in Hrun as (Hfr1 & Hsame1 & Hok1).
      apply Hitems in H as (Hfr2 & Hok2). split.
      * intros q d Hd Hq. apply Hfr2.
        -- destruct (decide (q = prefix ++ [k])) as [->|Hne].
           ++ rewrite Hsame1; [exact Hd|congruence].
           ++ rewrite Hfr1; auto.
        -- intros p v' Hl. rewrite <- app_assoc. apply (Hq (k :: p) v').
           eapply leaf_below; [left; reflexivity|exact Hl].
      * intros Hr. destruct (Hok2 Hr) as (Hst2 & Hgr2). split.
        -- intros p v' Hl Hco. apply leaf_of_single_dict in Hl as (p' & -> & Hl).
           replace (prefix ++ k :: p') with ((prefix ++ [k]) ++ p')
             by (rewrite <- app_assoc; reflexivity). rewrite <- Hi1. eauto.
        -- intros p Hp. apply group_path_single in Hp as (items' & E & [->|(p' & -> & Hp')]).
           ++ eapply step_rel_keeps; [exact Hstep2|]. apply Hok1. reflexivity.
           ++ inversion E; subst items'.
              replace (prefix ++ k :: p') with ((prefix ++ [k]) ++ p')
                by (rewrite <- app_assoc; reflexivity). eauto.
    + subst r. apply ensure_group_frame in Hrun as (Hfr1 & Hsame1 & _).
      split; [|discriminate]. intros q d Hd Hq.
      destruct (decide (q = prefix ++ [k])) as [->|Hne].
      * rewrite Hsame1; [exact Hd|congruence].
      * rewrite Hfr1; auto.
Qed.

Lemma write_without_iterate_frame D : items_frame_spec py h5_setitem D.
Proof.
  apply items_frame_from_item. apply Forall_forall. intros [k v] _. apply write_item_frame.
Qed.

Lemma write_body_inv D s r s' :
  write py h5_setitem D s = (r, s') ->
  exists s1, _write_without_iterate py h5_setitem D [] s = (r, s1) /\
             _f s' = _f s1 /\ (forall e, r = Raise e -> s' = s1).
Proof.
  unfold write. intros H. inv_bind_as H u s1 Hrun.
  - destruct u. inversion H; subst r s'. exists s1. simpl.
    split; [exact Hrun|]. split; [reflexivity|discriminate].
  - subst r. exists s'. auto.
Qed.

End FrameFacts.

(** * The properties of the stack writer *)

Section WriterProperties.

Variable py : interpreter.
Variable h5_setitem : dataset -> selection -> pyval -> exn_class + list (list pyval).

Lemma last_In {A} (l : list A) x : last l = Some x -> In x l.
Proof.
  induction l as [|a [|b l] IH]; simpl; intros H; [discriminate| |].
  - inversion H. auto.
  - right. apply IH. exact H.
Qed.

Lemma last_nonempty {A} (l : list A) : l <> [] -> exists x, last l = Some x.
Proof.
  induction l as [|a [|b l] IH]; intros H; [congruence|simpl; eauto|].
  destruct IH as [x Hx]; [discriminate|]. exists x. exact Hx.
Qed.

(** One call of [write] that returns, for a leaf that can be coerced:
    afterwards the leaf has a dataset whose first extent is beyond the
    stack position; it is the first extent before the call, the chunk
    size for a dataset that the call creates, or, that one being at most
    the stack position, the extent of line 108. *)
Lemma write_capacity D s s' p v :
  write py h5_setitem D s = (OK tt, s') ->
  leaf_of D p v -> coercible py v ->
  exists d' t, obj_at (_f s') p = Some (ODataset d') /\
    ds_shape d' = hd 0 (ds_shape d') :: t /\ _i s < hd 0 (ds_shape d') /\
    match obj_at (_f s) p with
    | Some (ODataset d) =>
        hd 0 (ds_shape d') = hd 0 (ds_shape d) \/
        (hd 0 (ds_shape d) <= _i s /\
         hd 0 (ds_shape d') = chunk_extent py (_chunksize s) (_i s))
    | Some OGroup => False
    | None =>
        hd 0 (ds_shape d') = _chunksize s \/
        (_chunksize s <= _i s /\
         hd 0 (ds_shape d') = chunk_extent py (_chunksize s) (_i s))
    end.
Proof.
  intros H Hl Hco.
  pose proof (write_inv _ _ _ _ _ _ H) as (_ & (Hev & _) & _).
  destruct (write_body_inv _ _ _ _ _ _ H) as (s1 & Hbody & Hf & _).
  destruct (write_without_iterate_frame py h5_setitem D [] s _ s1 Hbody) as (_ & Hok).
  destruct (Hok eq_refl) as (Hst & _).
  destruct (Hst p v Hl Hco) as (d' & Hd' & Hlt). simpl in Hd'. rewrite <- Hf in Hd'.
  specialize (Hev p). exists d'.
  destruct (ds_shape d') as [|x t] eqn:Es; simpl in Hlt; [lia|].
  exists t. simpl. split; [exact Hd'|]. split; [reflexivity|]. split; [exact Hlt|].
  destruct (obj_at (_f s) p) as [[|d]|].
  - rewrite Hd' in Hev. discriminate.
  - destruct Hev as (d1 & E & _ & _ & _ & [Hs|(s0 & t0 & t1 & Hs0 & Hle & _ & Hs & _)]);
      rewrite Hd' in E; inversion E; subst d1.
    + left. rewrite <- Hs, Es. reflexivity.
    + right. rewrite Hs0. simpl. split; [exact Hle|].
      rewrite Es in Hs. inversion Hs. reflexivity.
  - destruct Hev as [E|[E|(d0 & d1 & (p0 & v0 & _ & _ & Hfresh) & (_ & _ & _ & Hsh) & E)]];
      rewrite Hd' in E; try discriminate. inversion E; subst d1.
    assert (Hd0 : exists t0, ds_shape d0 = _chunksize s :: t0).
    { destruct Hfresh as [(_ & Hs0 & _)|(_ & dt & sh & el & _ & _ & Hs0 & _)];
        rewrite Hs0; eauto. }
    destruct Hd0 as [t0 Hd0].
    destruct Hsh as [Hs|(s0 & t1 & t2 & Hs0 & Hle & _ & Hs & _)].
    + left. rewrite Es, Hd0 in Hs. inversion Hs. reflexivity.
    + right. rewrite Hd0 in Hs0. inversion Hs0; subst s0 t1.
      rewrite Es in Hs. inversion Hs. split; [exact Hle|reflexivity].
Qed.



(** C5. Axis tagging: a dataset that a call of [write] has created comes
    from a leaf of the record at its path and carries the attribute
    [axes], a single string: [experiment_identifier:value] for a scalar,
    and [experiment_identifier:x], [experiment_identifier:y:x] and
    [experiment_identifier:z:y:x] for an array of 1, 2 and 3 dimensions. *)
Theorem axes_tagging (D : list (string * pyval)) (s : writer) (r : result unit)
    (s' : writer) (p : path) (d : dataset) :
  write py h5_setitem D s = (r, s') ->
  obj_at (_f s) p = None ->
  obj_at (_f s') p = Some (ODataset d) ->
  exists v axes,
    leaf_of D p v /\ alist_get "axes" (ds_attrs d) = Some [axes] /\
    (isscalar v = true -> axes = "experiment_identifier:value") /\
    (isscalar v = false -> ndim v = 1 -> axes = "experiment_identifier:x") /\
    (isscalar v = false -> ndim v = 2 -> axes = "experiment_identifier:y:x") /\
    (isscalar v = false -> ndim v = 3 -> axes = "experiment_identifier:z:y:x").
Proof.
  intros H Hnone Hd. apply write_inv in H as (_ & (Hev & _) & _).
  specialize (Hev p). rewrite Hnone in Hev.
  destruct Hev as [E|[E|(d0 & d1 & (p0 & v & Ep & Hl & Hf) & (Ha & _) & E)]];
    rewrite E in Hd; try discriminate.
  inversion Hd; subst d1. simpl in Ep. subst p0. exists v.
  destruct Hf as [(Hsc & _ & _ & _ & Hattrs)|(Hsc & dt & shape & elts & Has & _ & _ & _ & _ & Hattrs)];
    rewrite Ha, Hattrs; eexists; (split; [exact Hl|]); (split; [reflexivity|]).
  - repeat split; congruence.
  - unfold ndim. rewrite Has. split; [congruence|].
    repeat split; intros _ ->; reflexivity.
Qed.



(** Successive calls of [write] raise no error for an existing group and
    keep the groups of the container. *)
Lemma write_all_groups rs : forall s r s',
  write_all py h5_setitem rs s = (r, s') ->
  r <> Raise group_exists /\
  (forall q, obj_at (_f s) q = Some OGroup -> obj_at (_f s') q = Some OGroup).
Proof.
  unfold write_all. induction rs as [|D rs IH]; intros s r s' H; simpl in H.
  - inversion H; subst. split; [discriminate|auto].
  - fold (for_each (write py h5_setitem)) in H. inv_bind_as H u s1 Hrun.
    + apply write_inv in Hrun as (_ & (Hev & _) & _).
      apply IH in H as (Hne & Hkeep). split; [exact Hne|].
      intros q Hq. apply Hkeep. specialize (Hev q). rewrite Hq in Hev. exact Hev.
    + subst r. apply write_inv in Hrun as (_ & (Hev & _) & Hr).
      simpl in Hr. destruct Hr as [_ Hne]. split; [congruence|].
      intros q Hq. specialize (Hev q). rewrite Hq in Hev. exact Hev.
Qed.

(** C7. Group creation is idempotent: calling [write] with the same
    record any number of times, in any state of the container, never
    raises the error of [create_group] for a name that exists; the
    groups of the container are kept; and for a name that exists the
    writer creates nothing. *)
Theorem group_creation_idempotent (D : list (string * pyval)) (n : nat)
    (s : writer) (r : result unit) (s' : writer) :
  write_all py h5_setitem (repeat D n) s = (r, s') ->
  r <> Raise group_exists /\
  (forall q, obj_at (_f s) q = Some OGroup -> obj_at (_f s') q = Some OGroup) /\
  (forall prefix k x, get (_f s') (prefix ++ [k]) = Some x ->
     ensure_group prefix k s' = (OK tt, s')).
Proof.
  intros H. apply write_all_groups in H as (Hne & Hkeep).
  split; [exact Hne|]. split; [exact Hkeep|].
  intros prefix k x Hx. unfold ensure_group, bind, getitem.
  pose proof Hx as Hx'. rewrite get_app in Hx'.
  destruct (get (_f s') prefix) as [g|] eqn:Hg; [|discriminate].
  rewrite (contains_get _ _ _ k Hg), Hx. reflexivity.
Qed.

(** C10. A call of [write] that raises leaves the stack position as it
    was, so that the next call that returns stores at that position and
    advances it by one. *)
Theorem index_unchanged_on_raise (D : list (string * pyval)) (s : writer)
    (e : exn) (s' : writer) :
  write py h5_setitem D s = (Raise e, s') ->
  _i s' = _i s /\ _chunksize s' = _chunksize s /\
  forall D2 s'', write py h5_setitem D2 s' = (OK tt, s'') -> _i s'' = _i s + 1.
Proof.
  intros H. apply write_inv in H as (HC & _ & Hr). simpl in Hr. destruct Hr as [Hi _].
  split; [exact Hi|]. split; [exact HC|].
  intros D2 s'' H2. apply write_inv in H2 as (_ & _ & Hi2). simpl in Hi2. lia.
Qed.

End WriterProperties.


(** C2. The round trip of the specification: the two records, a chunk
    size of 2, then [close], on Python 2 and on Python 3 alike. *)
Theorem round_trip (py : interpreter) :
  exists s a b,
    (write_all py h5py_setitem round_trip_records ;;; close) (__init__ 2) = (OK tt, s) /\
    obj_at (_f s) ["a"] = Some (ODataset a) /\
    ds_shape a = [2] /\ ds_rows a = [[PInt 1]; [PInt 2]] /\
    obj_at (_f s) ["b"] = Some (ODataset b) /\
    ds_shape b = [2; 2] /\
    ds_rows b = [[PFloat 1.0; PFloat 2.0]; [PFloat 3.0; PFloat 4.0]].
Proof.
  eexists _, _, _. vm_compute. repeat split; reflexivity.
Qed.

Lemma axes_tagging_witness :
  exists v axes,
    leaf_of (frame 1) ["img"] v /\
    alist_get "axes" (ds_attrs (MkDataset [2; 2; 2] [None; Some 2; Some 2] Dint64
        [("axes", ["experiment_identifier:y:x"])]
        [[PInt 1; PInt 0; PInt 0; PInt 1]; [PInt 0; PInt 0; PInt 0; PInt 0]]))
      = Some [axes] /\
    (isscalar v = true -> axes = "experiment_identifier:value") /\
    (isscalar v = false -> ndim v = 1 -> axes = "experiment_identifier:x") /\
    (isscalar v = false -> ndim v = 2 -> axes = "experiment_identifier:y:x") /\
    (isscalar v = false -> ndim v = 3 -> axes = "experiment_identifier:z:y:x").
Proof.
  eapply (axes_tagging python2 h5py_setitem (frame 1) (__init__ 2) (OK tt)
            (snd (write python2 h5py_setitem (frame 1) (__init__ 2))) ["img"]).
  - vm_compute; reflexivity.
  - reflexivity.
  - vm_compute; reflexivity.
Defined.



Lemma group_creation_idempotent_witness :
  write_all python2 h5py_setitem (repeat (frame 1) 2) (__init__ 2) = (OK tt, after_two_frames) /\
  OK tt <> Raise group_exists /\
  ensure_group [] "g" after_two_frames = (OK tt, after_two_frames).
Proof.
  assert (H : write_all python2 h5py_setitem (repeat (frame 1) 2) (__init__ 2) =
              (OK tt, after_two_frames)) by (vm_compute; reflexivity).
  split; [exact H|].
  destruct (group_creation_idempotent python2 h5py_setitem (frame 1) 2 (__init__ 2) _ _ H)
    as (Hne & _ & Hreuse).
  split; [exact Hne|]. apply (Hreuse [] "g" (Group [("x",
    Dataset (MkDataset [2] [None] Dfloat64 [("axes", ["experiment_identifier:value"])]
               [[PFloat 0.5]; [PFloat 0.5]]))])).
  vm_compute. reflexivity.
Defined.

Lemma index_unchanged_on_raise_witness :
  write python2 h5py_setitem partial_record after_list_record =
    (Raise (Exn TypeError "object is not subscriptable"), after_partial_record) /\
  obj_at (_f after_list_record) ["a"] = None /\
  obj_at (_f after_partial_record) ["a"] <> None /\
  _i after_partial_record = _i after_list_record.
Proof.
  assert (H : write python2 h5py_setitem partial_record after_list_record =
              (Raise (Exn TypeError "object is not subscriptable"), after_partial_record))
    by (vm_compute; reflexivity).
  split; [exact H|]. split; [reflexivity|]. split; [vm_compute; discriminate|].
  apply (index_unchanged_on_raise python2 h5py_setitem partial_record after_list_record _ _ H).
Defined.


(** * Further properties of the stack writer *)

Section WriterFrame.

Variable py : interpreter.
Variable h5_setitem : dataset -> selection -> pyval -> exn_class + list (list pyval).

(** X1. A call of [write], whether it returns or raises, removes no
    dataset and turns none into a group; it keeps the attributes, the
    maximal shape, the element type and the rank of every dataset, and
    the first extent of none gets smaller. *)
Theorem write_keeps_datasets (D : list (string * pyval)) (s : writer)
    (r : result unit) (s' : writer) (q : path) (d : dataset) :
  write py h5_setitem D s = (r, s') ->
  obj_at (_f s) q = Some (ODataset d) ->
  exists d', obj_at (_f s') q = Some (ODataset d') /\
    ds_attrs d' = ds_attrs d /\ ds_maxshape d' = ds_maxshape d /\
    ds_dtype d' = ds_dtype d /\
    length (ds_shape d') = length (ds_shape d) /\
    hd 0 (ds_shape d) <= hd 0 (ds_shape d').
Proof.
  intros H Hd. apply write_inv in H as (_ & (Hev & _) & _).
  specialize (Hev q). rewrite Hd in Hev.
  destruct Hev as (d' & Hd' & Ha & Hm & Ht & Hs). exists d'.
  split; [exact Hd'|]. split; [exact Ha|]. split; [exact Hm|]. split; [exact Ht|].
  destruct Hs as [->|(s0 & t & t' & E & Hle & Hbeyond & -> & _ & Hlen)]; [auto|].
  rewrite E. simpl. split; lia.
Qed.

(** X2. A call of [write] for a record whose keys, at every depth, are
    names of one link each (not empty, not [.], without [/]), whether
    the call returns or raises, leaves a dataset that is at the path of
    no leaf of the record exactly as it is, its content included. A key
    with a [/] is outside the statement: the name that the code makes
    of it by concatenation is the path of a dataset deeper in the
    container, which the call then writes to. *)
Theorem write_touches_only_its_leaves (D : list (string * pyval)) (s : writer)
    (r : result unit) (s' : writer) (q : path) (d : dataset) :
  plain_keys D = true ->
  write py h5_setitem D s = (r, s') ->
  obj_at (_f s) q = Some (ODataset d) ->
  (forall v, ~ leaf_of D q v) ->
  obj_at (_f s') q = Some (ODataset d).
Proof.
  intros _ H Hd Hq. apply write_body_inv in H as (s1 & H & -> & _).
  apply write_without_iterate_frame in H as (Hfr & _).
  apply Hfr; [exact Hd|]. intros p v Hl E. simpl in E. subst q. exact (Hq v Hl).
Qed.

(** X3. After a call of [write] that returns, every leaf of the record
    that is a scalar, or whose array has an element type that HDF5
    knows, has a dataset at its path, and the first extent of this
    dataset is at least the new stack position: the stack has room for
    all the records written. No chunk size and no earlier state is
    assumed. *)
Theorem write_stores_coercible_leaves (D : list (string * pyval)) (s s' : writer)
    (p : path) (v : pyval) :
  write py h5_setitem D s = (OK tt, s') ->
  leaf_of D p v -> coercible py v ->
  exists d, obj_at (_f s') p = Some (ODataset d) /\ _i s' <= hd 0 (ds_shape d).
Proof.
  intros H Hl Hco. pose proof (write_inv _ _ _ _ _ _ H) as (_ & _ & Hi). simpl in Hi.
  apply write_body_inv in H as (s1 & H & -> & _).
  apply write_without_iterate_frame in H as (_ & Hok).
  destruct (Hok eq_refl) as (Hst & _).
  destruct (Hst p v Hl Hco) as (d & Hd & Hlt). exists d.
  split; [exact Hd|lia].
Qed.

(** X4. After a call of [write] that returns, every nested dictionary of
    the record has an object at its path; where there was none before
    and the record has no leaf at that path, it is a group. *)
Theorem write_makes_groups (D : list (string * pyval)) (s s' : writer) (p : path) :
  write py h5_setitem D s = (OK tt, s') ->
  group_path D p ->
  obj_at (_f s') p <> None /\
  (obj_at (_f s) p = None -> (forall v, ~ leaf_of D p v) ->
   obj_at (_f s') p = Some OGroup).
Proof.
  intros H Hp. pose proof (write_inv _ _ _ _ _ _ H) as (_ & (Hev & _) & _).
  apply write_body_inv in H as (s1 & H & E & _).
  apply write_without_iterate_frame in H as (_ & Hok).
  destruct (Hok eq_refl) as (_ & Hgr). specialize (Hgr p Hp). simpl in Hgr.
  rewrite <- E in Hgr. split; [exact Hgr|].
  intros Hnone Hleaf. specialize (Hev p). rewrite Hnone in Hev.
  destruct Hev as [Hn|[Hg|(d0 & d' & (p' & v & Ep & Hl & _) & _)]];
    [contradiction|exact Hg|].
  simpl in Ep. subst p'. destruct (Hleaf v Hl).
Qed.

(** X5. A leaf that is given as a list or as [None], and whose dataset
    is there with a first extent that the stack position has reached,
    makes [write] raise [AttributeError], for such a value has no
    [shape]; when it is the first key of the record, the writer is left
    exactly as it was. *)
Theorem leaf_without_shape_cannot_grow (k : string) (v : pyval)
    (D : list (string * pyval)) (s : writer) (d : dataset) (x0 : nat)
    (t : list nat) (e : exn) :
  isscalar v = false -> is_dict v = false -> get_shape v = Raise e ->
  obj_at (_f s) [k] = Some (ODataset d) ->
  ds_shape d = x0 :: t -> x0 <= _i s ->
  write py h5_setitem ((k, v) :: D) s = (Raise e, s) /\
  exn_cls e = AttributeError.
Proof.
  intros Hsc Hdict Hshape Hd Hs Hle. split.
  - assert (Hleaf : write_leaf py h5_setitem [] k v s = (Raise e, s)).
    { unfold write_leaf.
      rewrite (bind_ok _ _ s (_f s) s) by reflexivity.
      pose proof (contains_get (_f s) [] (_f s) k eq_refl) as Hin.
      change ([] ++ [k]) with [k] in Hin |- *.
      assert (Hget : get (_f s) [k] = Some (Dataset d)).
      { unfold obj_at in Hd. destruct (get (_f s) [k]) as [[|]|]; congruence. }
      rewrite Hget in Hin. rewrite Hin. cbn [negb].
      unfold store. erewrite bind_raise; [reflexivity|].
      unfold grow. rewrite (bind_ok _ _ _ _ _ (getdataset_ok _ _ _ Hd)).
      rewrite Hs. erewrite bind_ok by reflexivity.
      erewrite bind_ok by reflexivity. cbv beta.
      apply Nat.leb_le in Hle. rewrite Hle, Hsc, Hshape.
      erewrite bind_raise by reflexivity. reflexivity. }
    unfold write. erewrite bind_raise; [reflexivity|].
    unfold _write_without_iterate. cbn [for_each fst snd].
    erewrite bind_raise; [reflexivity|].
    replace (write_item py h5_setitem [] k v s) with (write_leaf py h5_setitem [] k v s)
      by (destruct v; try reflexivity; discriminate).
    exact Hleaf.
  - destruct v; simpl in Hshape; inversion Hshape; reflexivity.
Qed.

(** X6. A leaf under a key that names a group makes [write] raise
    [AttributeError], for a group has no [shape]; when it is the first
    key of the record, the writer is left exactly as it was. *)
Theorem leaf_over_group_raises (k : string) (v : pyval)
    (D : list (string * pyval)) (s : writer) :
  is_dict v = false ->
  obj_at (_f s) [k] = Some OGroup ->
  write py h5_setitem ((k, v) :: D) s =
    (Raise (Exn AttributeError "'Group' object has no attribute 'shape'"), s).
Proof.
  intros Hdict Hg.
  assert (Hget : exists cs, get (_f s) [k] = Some (Group cs)).
  { unfold obj_at in Hg. destruct (get (_f s) [k]) as [[cs|]|]; try discriminate. eauto. }
  destruct Hget as [cs Hget].
  unfold write. erewrite bind_raise; [reflexivity|].
  unfold _write_without_iterate. cbn [for_each fst snd].
  erewrite bind_raise; [reflexivity|].
  replace (write_item py h5_setitem [] k v s) with (write_leaf py h5_setitem [] k v s)
    by (destruct v; try reflexivity; discriminate).
  unfold write_leaf.
  rewrite (bind_ok _ _ s (_f s) s) by reflexivity.
  pose proof (contains_get (_f s) [] (_f s) k eq_refl) as Hin.
  change ([] ++ [k]) with [k] in Hin |- *.
  rewrite Hget in Hin. rewrite Hin. cbn [negb].
  unfold store. erewrite bind_raise; [reflexivity|].
  unfold grow. erewrite bind_raise; [reflexivity|].
  unfold getdataset. erewrite bind_ok; [|unfold getitem; rewrite Hget; reflexivity].
  reflexivity.
Qed.


End WriterFrame.

(** ** With the floor division of Python 2 *)

Section WriterFloorDivision.

Variable h5_setitem : dataset -> selection -> pyval -> exn_class + list (list pyval).

(** On Python 2 the first extent of every dataset stays of the form
    [C * (j / C + 1)] for a stack position [j] that has been reached. *)
Lemma all_chunked_write D s r s' :
  all_chunked s -> write python2 h5_setitem D s = (r, s') -> all_chunked s'.
Proof.
  intros Hall H q d' Hd'. apply write_inv in H as (HC & (Hev & _) & Hr).
  assert (Hi : _i s <= _i s') by (destruct r; simpl in Hr; lia).
  rewrite HC. specialize (Hev q).
  assert (Hmono : forall d, chunked (_chunksize s) (_i s) d ->
                            chunked (_chunksize s) (_i s') d).
  { intros d (j & t & Hj & E). exists j, t. split; [lia|exact E]. }
  destruct (obj_at (_f s) q) as [[|d]|] eqn:Hq.
  - congruence.
  - destruct Hev as (d1 & E & Hevd). rewrite Hd' in E. inversion E; subst d1.
    apply Hmono. eapply chunked_evolves; [apply (Hall q d Hq)|exact Hevd].
  - destruct Hev as [E|[E|(d0 & d1 & (p0 & v0 & _ & _ & Hfresh) & Hevd & E)]];
      try congruence.
    rewrite Hd' in E. inversion E; subst d1.
    apply Hmono. eapply chunked_evolves; [|exact Hevd].
    exists 0, (tl (ds_shape d0)). split; [lia|]. rewrite Nat.Div0.div_0_l.
    destruct Hfresh as [(_ & Hs0 & _)|(_ & dt & sh & el & _ & _ & Hs0 & _)];
      rewrite Hs0; simpl; f_equal; lia.
Qed.

Lemma all_chunked_write_all rs : forall s s',
  all_chunked s -> write_all python2 h5_setitem rs s = (OK tt, s') -> all_chunked s'.
Proof.
  unfold write_all. induction rs as [|D rs IH]; intros s s' Hall H; simpl in H.
  - inversion H; subst. exact Hall.
  - fold (for_each (write python2 h5_setitem)) in H.
    inv_bind_as H u s1 Hrun; [|discriminate].
    eapply IH; [|exact H]. eapply all_chunked_write; eauto.
Qed.

(** X8. The capacity of the leaves of the last record, on Python 2,
    where the division of line 108 is the floor division: after [N]
    calls of [write] that returned on a new writer with a chunk size
    [C > 0], every leaf of the last record that can be coerced has a
    dataset whose first extent is [C * ((N - 1) / C + 1)], whether or
    not the earlier records held that leaf. (With the true division of
    Python 3 this holds of the leaves that every record holds, as C1
    states; a dataset created at a later stack position [j >= C] grows
    to about [j + C] there.) *)
Theorem capacity_of_last_record (C : nat) (rs : list (list (string * pyval)))
    (D : list (string * pyval)) (s : writer) (p : path) (v : pyval) :
  0 < C ->
  write_all python2 h5_setitem rs (__init__ C) = (OK tt, s) ->
  last rs = Some D -> leaf_of D p v -> coercible python2 v ->
  exists d t, obj_at (_f s) p = Some (ODataset d) /\
              ds_shape d = C * ((length rs - 1) / C + 1) :: t.
Proof.
  intros HC H Hlast Hl Hco.
  apply last_Some in Hlast as [rs' ->].
  unfold write_all in H. rewrite for_each_app in H.
  inv_bind_as H u s1 Hrun; [|discriminate]. simpl in H.
  inv_bind_as H u' s2 Hw; [|discriminate]. inversion H; subst s2.
  destruct u, u'.
  pose proof (write_all_inv python2 h5_setitem rs' _ _ Hrun) as (Hi1 & HC1 & _).
  simpl in Hi1, HC1.
  pose proof (all_chunked_write_all rs' _ _ (all_chunked_init C) Hrun) as Hall.
  destruct (write_capacity python2 h5_setitem D s1 s p v Hw Hl Hco)
    as (d & t & Hd & Hs & Hlt & Hcase).
  exists d, t. split; [exact Hd|]. rewrite Hs. f_equal.
  rewrite length_app. simpl. replace (length rs' + 1 - 1) with (length rs') by lia.
  destruct (obj_at (_f s1) p) as [[|d0]|] eqn:Hp.
  - destruct Hcase.
  - destruct Hcase as [E|(_ & E)].
    + destruct (Hall p d0 Hp) as (j & t0 & Hj & Hs0).
      rewrite E, Hs0 in *. simpl in *. rewrite HC1, Hi1 in *.
      f_equal. f_equal. symmetry. apply chunk_same; [exact HC|exact Hj|exact Hlt].
    + rewrite E, HC1, Hi1. reflexivity.
  - destruct Hcase as [E|(_ & E)].
    + rewrite E, HC1 in *. rewrite Hi1 in Hlt. symmetry. apply chunk_first; lia.
    + rewrite E, HC1, Hi1. reflexivity.
Qed.

End WriterFloorDivision.


Lemma write_keeps_datasets_witness :
  exists d', obj_at (_f after_frame_three) ["n"] = Some (ODataset d') /\
    ds_attrs d' = ds_attrs n_two_frames /\
    ds_maxshape d' = ds_maxshape n_two_frames /\
    ds_dtype d' = ds_dtype n_two_frames /\
    length (ds_shape d') = length (ds_shape n_two_frames) /\
    hd 0 (ds_shape n_two_frames) <= hd 0 (ds_shape d').
Proof.
  apply (write_keeps_datasets python2 h5py_setitem (frame 3) after_two_frames (OK tt)
           after_frame_three ["n"] n_two_frames).
  - vm_compute. reflexivity.
  - vm_compute. reflexivity.
Defined.

Lemma write_touches_only_its_leaves_witness :
  obj_at (_f (snd (write python2 h5py_setitem [("n", PInt 5)] after_two_frames))) ["img"] =
  Some (ODataset img_two_frames).
Proof.
  apply (write_touches_only_its_leaves python2 h5py_setitem [("n", PInt 5)] after_two_frames
           (fst (write python2 h5py_setitem [("n", PInt 5)] after_two_frames))
           (snd (write python2 h5py_setitem [("n", PInt 5)] after_two_frames))
           ["img"] img_two_frames).
  - reflexivity.
  - vm_compute. reflexivity.
  - vm_compute. reflexivity.
  - intros v H. inversion H as [? ? ? Hin _|? ? ? ? ? Hin _];
      destruct Hin as [E|[]]; discriminate.
Defined.

Lemma write_stores_coercible_leaves_witness :
  exists d, obj_at (_f after_frame_three) ["img"] = Some (ODataset d) /\
            _i after_frame_three <= hd 0 (ds_shape d).
Proof.
  apply (write_stores_coercible_leaves python2 h5py_setitem (frame 3) after_two_frames
           after_frame_three ["img"]
           (PNdarray Dint64 [2; 2] [PInt 3; PInt 0; PInt 0; PInt 3])).
  - vm_compute. reflexivity.
  - apply leaf_here; [right; left; reflexivity|reflexivity].
  - right. exists Dint64, [2; 2], [PInt 3; PInt 0; PInt 0; PInt 3]. split; reflexivity.
Defined.

Lemma write_makes_groups_witness :
  obj_at (_f (snd (write python2 h5py_setitem (frame 1) (__init__ 2)))) ["g"] <> None /\
  (obj_at (_f (__init__ 2)) ["g"] = None ->
   (forall v, ~ leaf_of (frame 1) ["g"] v) ->
   obj_at (_f (snd (write python2 h5py_setitem (frame 1) (__init__ 2)))) ["g"] = Some OGroup).
Proof.
  apply (write_makes_groups python2 h5py_setitem (frame 1) (__init__ 2)
           (snd (write python2 h5py_setitem (frame 1) (__init__ 2))) ["g"]).
  - vm_compute. reflexivity.
  - eapply group_here. right. right. left. reflexivity.
Defined.

Lemma leaf_without_shape_cannot_grow_witness :
  write python2 h5py_setitem list_record after_two_list_records =
    (Raise (Exn AttributeError "object has no attribute 'shape'"),
     after_two_list_records) /\
  exn_cls (Exn AttributeError "object has no attribute 'shape'") = AttributeError.
Proof.
  eapply (leaf_without_shape_cannot_grow python2 h5py_setitem "b"
            (PList [PFloat 1.0; PFloat 2.0]) [] after_two_list_records).
  - reflexivity.
  - reflexivity.
  - reflexivity.
  - reflexivity.
  - reflexivity.
  - simpl. lia.
Defined.

Lemma leaf_over_group_raises_witness :
  write python2 h5py_setitem [("g", PInt 1)] after_two_frames =
    (Raise (Exn AttributeError "'Group' object has no attribute 'shape'"),
     after_two_frames).
Proof.
  apply (leaf_over_group_raises python2 h5py_setitem "g" (PInt 1) [] after_two_frames).
  - reflexivity.
  - vm_compute. reflexivity.
Defined.


Lemma capacity_of_last_record_witness :
  exists d t, obj_at (_f after_late_frames) ["late"] = Some (ODataset d) /\
              ds_shape d = 2 * ((length late_frames - 1) / 2 + 1) :: t.
Proof.
  apply (capacity_of_last_record h5py_setitem 2 late_frames
           (frame 3 ++ [("late", PInt 7)]) after_late_frames ["late"] (PInt 7)).
  - lia.
  - vm_compute. reflexivity.
  - reflexivity.
  - apply leaf_here; [right; right; right; left; reflexivity|reflexivity].
  - left. reflexivity.
Defined.

(** ** [close] *)

Lemma shrink_resizes i n n' :
  _shrink_stacks i n = (OK tt, n') ->
  forall q d, get n q = Some (Dataset d) ->
    exists d', h5_resize d (i :: tl (ds_shape d)) = OK d'.
Proof.
  intros H q. revert n n' H. induction q as [|k q IH]; intros n n' H d Hd.
  - simpl in Hd. inversion Hd; subst n. simpl in H.
    destruct (ds_shape d) as [|s0 t]; [discriminate|]. simpl.
    destruct (h5_resize d (i :: t)) as [d'|]; [eauto|discriminate].
  - destruct n as [cs|d0]; [|discriminate]. rewrite shrink_group in H.
    destruct (shrink_children i cs) as [r cs'] eqn:E. inversion H; subst r n'.
    pose proof (shrink_children_get i cs cs' k E) as Hk. simpl in Hd.
    destruct (alist_get k cs) as [c|]; [|discriminate].
    destruct Hk as (c' & _ & Hc). eapply IH; eauto.
Qed.

Lemma h5_resize_rows d n t d' :
  h5_resize d (n :: t) = OK d' -> length (ds_rows d') = n.
Proof.
  unfold h5_resize. destruct (_ && _); [|discriminate].
  intros H; inversion H; subst d'. simpl.
  rewrite length_app, repeat_length, length_map, length_take. lia.
Qed.

(** X9. A call of [close] that returns keeps the stack position, the
    groups and the paths that name nothing; every dataset keeps its
    attributes, its maximal shape, its element type and its trailing
    extents, and has the stack position both for its first extent and for
    the number of its rows. *)
Theorem close_leaves_stack_length (s s' : writer) :
  close s = (OK tt, s') ->
  _i s' = _i s /\ _chunksize s' = _chunksize s /\
  (forall p, obj_at (_f s') p = Some OGroup <-> obj_at (_f s) p = Some OGroup) /\
  (forall p, obj_at (_f s') p = None <-> obj_at (_f s) p = None) /\
  (forall p d, obj_at (_f s) p = Some (ODataset d) ->
     exists d', obj_at (_f s') p = Some (ODataset d') /\
       ds_shape d' = _i s :: tl (ds_shape d) /\
       ds_attrs d' = ds_attrs d /\ ds_maxshape d' = ds_maxshape d /\
       ds_dtype d' = ds_dtype d /\ length (ds_rows d') = _i s).
Proof.
  unfold close. destruct (_shrink_stacks (_i s) (_f s)) as [r f'] eqn:E.
  intros H; inversion H; subst r s'. simpl.
  pose proof (shrink_obj_at _ _ _ E) as Hobj.
  split; [reflexivity|]. split; [reflexivity|]. split; [|split].
  - intros p. rewrite Hobj. destruct (obj_at (_f s) p) as [[|d]|]; simpl; split;
      intros H'; try reflexivity; discriminate.
  - intros p. rewrite Hobj. destruct (obj_at (_f s) p) as [[|d]|]; simpl; split;
      intros H'; try reflexivity; discriminate.
  - intros p d Hd. rewrite Hobj, Hd. simpl. exists (resized (_i s) d).
    split; [reflexivity|].
    assert (Hget : get (_f s) p = Some (Dataset d)).
    { unfold obj_at in Hd. destruct (get (_f s) p) as [[|]|]; congruence. }
    destruct (shrink_resizes _ _ _ E p d Hget) as (d' & Hres).
    unfold resized. rewrite Hres.
    pose proof (h5_resize_rows _ _ _ _ Hres) as Hrows.
    apply h5_resize_inv in Hres as (Hs & Hm & Ht & Ha & _). auto 10.
Qed.

Lemma close_leaves_stack_length_witness :
  _i closed_three_frames = _i after_three_frames /\
  _chunksize closed_three_frames = _chunksize after_three_frames /\
  (forall p, obj_at (_f closed_three_frames) p = Some OGroup <->
             obj_at (_f after_three_frames) p = Some OGroup) /\
  (forall p, obj_at (_f closed_three_frames) p = None <->
             obj_at (_f after_three_frames) p = None) /\
  (forall p d, obj_at (_f after_three_frames) p = Some (ODataset d) ->
     exists d', obj_at (_f closed_three_frames) p = Some (ODataset d') /\
       ds_shape d' = _i after_three_frames :: tl (ds_shape d) /\
       ds_attrs d' = ds_attrs d /\ ds_maxshape d' = ds_maxshape d /\
       ds_dtype d' = ds_dtype d /\ length (ds_rows d') = _i after_three_frames).
Proof.
  apply (close_leaves_stack_length after_three_frames closed_three_frames).
  vm_compute. reflexivity.
Defined.

(** ** A stack of scalars under one key *)

Section ScalarStack.

Variable py : interpreter.
Variables (C : nat) (k : string) (dt : np_dtype).
Hypothesis HC : 0 < C.














End ScalarStack.



(** * The properties of the map reader *)

Import MapFile.
Local Open Scope Z_scope.

(** As the module is written, [read_map] returns on no file. *)
Lemma read_map_never_returns file log :
  exists e, fst (read_map module_namespace file log) = Raise e.
Proof.
  unfold read_map, bind, lift.
  destruct (frombuffer_int32 (take 1024 file)) as [words|e]; [|eauto].
  destruct (array_index words 3) as [MODE|e]; [|eauto].
  destruct (list_index mode_table MODE) as [dtype|e]; [|eauto].
  simpl. eauto.
Qed.

Lemma known_size_nonneg extents :
  Forall (fun d => 0 <= d) extents ->
  known_size extents = product extents /\ count_unknown extents = O.
Proof.
  unfold known_size, product, count_unknown.
  induction 1 as [|d extents Hd _ [IH1 IH2]]; simpl; [auto|].
  destruct (Z.leb_spec 0 d); [|lia]. destruct (Z.ltb_spec d 0); [lia|].
  rewrite IH1. auto.
Qed.

Lemma frombuffer_inv data name a :
  frombuffer data name = OK a ->
  exists sz, np_itemsize name = Some sz /\ (length data mod sz = 0)%nat /\
             nd_size a = (length data / sz)%nat /\ nd_buffer a = data.
Proof.
  unfold frombuffer. destruct (np_itemsize name) as [sz|]; [|discriminate].
  destruct (length data mod sz =? 0)%nat eqn:E; [|discriminate].
  intros H; inversion H; subst. exists sz. apply Nat.eqb_eq in E.
  unfold nd_size. simpl. repeat split; auto. lia.
Qed.

Lemma np_itemsize_pos name sz : np_itemsize name = Some sz -> (0 < sz)%nat.
Proof.
  unfold np_itemsize.
  repeat (match goal with |- context [String.eqb ?a ?b] => destruct (String.eqb a b) end);
    intros H; inversion H; lia.
Qed.

Lemma reshape_inv flat newshape a :
  reshape flat newshape = OK a ->
  nd_buffer a = nd_buffer flat /\ nd_dtype a = nd_dtype flat.
Proof.
  unfold reshape. destruct (2 ^ 63 <=? _); [discriminate|].
  destruct (count_unknown newshape) as [|[|n]]; [| |discriminate].
  - destruct (_ =? _); intros H; inversion H; auto.
  - destruct (_ || _); intros H; inversion H; auto.
Qed.

Lemma payload_short file : short_header file -> payload file = [].
Proof.
  unfold short_header, payload. intros H.
  rewrite (drop_ge file 1024) by lia. rewrite drop_nil.
  destruct (0 <? _); reflexivity.
Qed.

(** A call of [read_map] that returns has decoded the mode, viewed the
    payload as a flat array and reshaped it to the extents. *)
Lemma read_map_inv g file log a dx log' :
  read_map g file log = (OK (a, dx), log') ->
  exists MODE dtype flat,
    nth_error (header_words file) 3 = Some MODE /\
    list_index mode_table MODE = OK dtype /\
    frombuffer (payload file) dtype = OK flat /\
    reshape flat (declared_extents file) = OK a.
Proof.
  unfold read_map. intros H.
  inv_bind_as H words l1 Hrun; [|discriminate].
  apply lift_inv in Hrun as [Hw ->].
  assert (Ew : header_words file = words).
  { unfold frombuffer_int32 in Hw. destruct (_ =? _)%nat; inversion Hw. reflexivity. }
  inv_bind_as H MODE l1 Hrun; [|discriminate]. apply lift_inv in Hrun as [Hm ->].
  inv_bind_as H dtype l1 Hrun; [|discriminate]. apply lift_inv in Hrun as [Hdt ->].
  inv_bind_as H dtype_mode l1 Hrun; [|discriminate]. apply lift_inv in Hrun as [_ ->].
  inv_bind_as H known l1 Hrun; [|discriminate]. apply lift_inv in Hrun as [_ ->].
  inv_bind_as H u l1 Hrun; [|discriminate]. clear Hrun.
  inv_bind_as H NSYMBT l2 Hrun; [|discriminate]. apply lift_inv in Hrun as [Hn ->].
  inv_bind_as H u2 l3 Hrun; [|discriminate]. clear Hrun.
  inv_bind_as H flat l4 Hrun; [|discriminate]. apply lift_inv in Hrun as [Hflat ->].
  inv_bind_as H data l5 Hrun; [|discriminate]. apply lift_inv in Hrun as [Hre ->].
  inv_bind_as H dx' l6 Hrun; [|discriminate].
  assert (data = a) as -> by (inversion H; reflexivity). clear H Hrun.
  assert (Epay : (if 0 <? NSYMBT then drop (Z.to_nat NSYMBT) (drop 1024 file)
                  else drop 1024 file) = payload file).
  { unfold payload. rewrite Ew. unfold array_index in Hn.
    destruct (nth_error words 23) as [x|] eqn:E; inversion Hn; subst.
    rewrite (nth_error_nth _ _ 0 E). reflexivity. }
  rewrite Epay in Hflat. exists MODE, dtype, flat.
  unfold declared_extents. rewrite Ew. unfold array_index in Hm.
  destruct (nth_error words 3) as [m|]; inversion Hm; subst m. auto.
Qed.

(** An array that [read_map] returns holds the whole payload: with
    non-negative extents, the byte count of the payload is the element
    size times the product of the extents. *)
Lemma read_map_returns_whole g file log a dx log' :
  read_map g file log = (OK (a, dx), log') ->
  Forall (fun d => 0 <= d) (declared_extents file) ->
  exists sz, element_size file = Some sz /\
    Z.of_nat (length (payload file)) = Z.of_nat sz * product (declared_extents file) /\
    nd_buffer a = payload file.
Proof.
  intros H Hext.
  apply read_map_inv in H as (MODE & dtype & flat & Hm & Hdt & Hflat & Hre).
  pose proof (reshape_inv _ _ _ Hre) as [Hbuf' _].
  apply frombuffer_inv in Hflat as (sz & Hsz & Hmod & Hsize & Hbuf).
  exists sz. unfold element_size. rewrite Hm, Hdt. split; [exact Hsz|].
  split; [|congruence].
  unfold reshape in Hre.
  destruct (known_size_nonneg _ Hext) as [Ek Ec]. rewrite Ek, Ec in Hre.
  destruct (2 ^ 63 <=? _); [discriminate|].
  destruct (Z.eqb_spec (Z.of_nat (nd_size flat)) (product (declared_extents file)))
    as [En|]; [|discriminate].
  rewrite <- En, Hsize.
  pose proof (np_itemsize_pos _ _ Hsz) as Hpos.
  pose proof (Nat.div_mod_eq (length (payload file)) sz). nia.
Qed.

(** C3 (defect of the code). On a header of extents (2, 3, 4), mode 2
    and NSYMBT 0 followed by 24 floats, [read_map] raises
    [NameError] for the name [dtype_mode], which nothing binds, before
    it reads the payload. *)
Theorem read_map_header_decode_raises :
  read_map module_namespace example_map [] = (Raise (Exn NameError "dtype_mode"), []).
Proof. vm_compute. reflexivity. Qed.

(** With the two names bound, the call returns what is specified: the
    payload, with the shape (2, 3, 4) and the element type float32. *)
Lemma read_map_header_decode_patched :
  read_map patched_namespace example_map [] =
  (OK (NdArray "float32" [2; 3; 4]%nat (floats 24), PFloat 1.0), []).
Proof. vm_compute. reflexivity. Qed.

(** C8 (defect of the code). A file whose mode is one of 0 to 5 is not
    decoded with a warning: the call raises [NameError] at the test that
    guards the warning, whatever the mode, and logs nothing. *)
Theorem read_map_mode_raises (file : list byte) (log : list warning)
    (words : list Z) (MODE : Z) :
  frombuffer_int32 (take 1024 file) = OK words ->
  array_index words 3 = OK MODE ->
  0 <= MODE <= 5 ->
  read_map module_namespace file log = (Raise (Exn NameError "dtype_mode"), log).
Proof.
  intros Hw Hm Hrange. unfold read_map, bind, lift. rewrite Hw, Hm.
  assert (Hcases : MODE = 0 \/ MODE = 1 \/ MODE = 2 \/ MODE = 3 \/ MODE = 4 \/ MODE = 5)
    by lia.
  destruct Hcases as [->|[->|[->|[->|[->| ->]]]]]; reflexivity.
Qed.

Lemma read_map_mode_raises_witness :
  read_map module_namespace mode1_map [] = (Raise (Exn NameError "dtype_mode"), []).
Proof.
  apply (read_map_mode_raises mode1_map [] (header_words mode1_map) 1).
  - vm_compute. reflexivity.
  - vm_compute. reflexivity.
  - lia.
Defined.

Lemma take_short {A} (l : list A) n : (length l < n)%nat -> take n l = l.
Proof. intros H. apply take_ge. lia. Qed.

Lemma int32_words_few buf :
  (length buf < 16)%nat -> nth_error (int32_words buf) 3 = None.
Proof.
  intros H.
  do 16 (destruct buf as [|? buf]; [reflexivity|]). simpl in H. lia.
Qed.

(** C9, as amended. A file of fewer than 1024 bytes is given no condition
    of its own: its bytes are decoded as the header; numpy raises
    [ValueError] when their number is not a multiple of 4, and
    [IndexError] for the word 3 when there are fewer than 16 bytes; and
    an array that is returned for such a file is empty. *)
Theorem short_file_errors (g : namespace) (file : list byte) (log : list warning) :
  short_header file ->
  ((length file mod 4 <> 0)%nat ->
   read_map g file log =
   (Raise (Exn ValueError "buffer size must be a multiple of element size"), log)) /\
  ((length file mod 4 = 0)%nat -> (length file < 16)%nat ->
   read_map g file log =
   (Raise (Exn IndexError "index is out of bounds for axis 0"), log)) /\
  (forall a dx log', read_map g file log = (OK (a, dx), log') -> nd_buffer a = []).
Proof.
  intros Hshort. split; [|split].
  - unfold read_map, bind, lift, frombuffer_int32.
    rewrite (take_short file 1024 Hshort).
    intros Hmod. apply Nat.eqb_neq in Hmod. rewrite Hmod. reflexivity.
  - unfold read_map, bind, lift, frombuffer_int32.
    rewrite (take_short file 1024 Hshort).
    intros Hmod Hfew. apply Nat.eqb_eq in Hmod. rewrite Hmod.
    unfold array_index. rewrite (int32_words_few file Hfew). reflexivity.
  - intros a dx log' H.
    apply read_map_inv in H as (MODE & dtype & flat & _ & _ & Hflat & Hre).
    apply reshape_inv in Hre as [-> _].
    apply frombuffer_inv in Hflat as (sz & _ & _ & _ & ->).
    apply payload_short, Hshort.
Qed.

Lemma short_file_errors_witness :
  short_header (take 1023 example_map) /\
  read_map module_namespace (take 1023 example_map) [] =
  (Raise (Exn ValueError "buffer size must be a multiple of element size"), []).
Proof.
  assert (H : short_header (take 1023 example_map)) by (vm_compute; lia).
  split; [exact H|].
  apply (short_file_errors module_namespace (take 1023 example_map) [] H).
  vm_compute. discriminate.
Defined.

(** C9, as it is stated, fails. As the module is written, a file of 1020
    bytes raises the [NameError] that the well-formed file of 1120 bytes
    raises too; and with the two names bound a file of 96 bytes is
    decoded and an array is returned. *)
Lemma short_header_not_distinct :
  short_header short_map /\
  ~ raises_distinctly module_namespace short_header short_map /\
  short_header tiny_map /\
  read_map patched_namespace tiny_map [] =
  (OK (NdArray "float32" [0; 3; 4]%nat [], PFloat 1.0), []).
Proof.
  split; [vm_compute; lia|]. split; [|split; [vm_compute; lia|vm_compute; reflexivity]].
  intros (e & He & Hdistinct).
  assert (E : e = Exn NameError "dtype_mode").
  { vm_compute in He. inversion He. reflexivity. }
  subst e.
  assert (Hlong : ~ short_header example_map) by (vm_compute; lia).
  apply Hlong, (Hdistinct example_map (Exn NameError "dtype_mode"));
    vm_compute; reflexivity.
Qed.

(** C4, as amended. A file with non-negative extents whose payload is not
    a multiple of the element size times the product of the extents is
    never returned as an array, partially reshaped or otherwise: the
    call raises. *)
Theorem truncated_payload_raises (g : namespace) (file : list byte)
    (log : list warning) (r : result (ndarray * pyval)) (log' : list warning) :
  truncated_payload file ->
  Forall (fun d => 0 <= d) (declared_extents file) ->
  read_map g file log = (r, log') ->
  exists e, r = Raise e.
Proof.
  intros (_ & sz & Hsz & Hnd) Hext H. destruct r as [[a dx]|e]; [|eauto].
  exfalso. apply read_map_returns_whole in H as (sz' & Hsz' & Hlen & _); [|exact Hext].
  rewrite Hsz in Hsz'. inversion Hsz'; subst sz'.
  apply Hnd. rewrite Hlen. apply Z.divide_refl.
Qed.

Lemma truncated_map_is_truncated : truncated_payload truncated_map.
Proof.
  split; [vm_compute; lia|]. exists 4%nat. split; [vm_compute; reflexivity|].
  intros [k Hk].
  assert (E1 : Z.of_nat (length (payload truncated_map)) = 100) by (vm_compute; reflexivity).
  assert (E2 : product (declared_extents truncated_map) = 24) by (vm_compute; reflexivity).
  rewrite E1, E2 in Hk. lia.
Qed.

Lemma truncated_payload_raises_witness :
  truncated_payload truncated_map /\
  Forall (fun d => 0 <= d) (declared_extents truncated_map) /\
  exists e, fst (read_map patched_namespace truncated_map []) = Raise e.
Proof.
  assert (H1 := truncated_map_is_truncated).
  assert (H2 : Forall (fun d => 0 <= d) (declared_extents truncated_map)).
  { vm_compute. repeat constructor; discriminate. }
  split; [exact H1|]. split; [exact H2|].
  apply (truncated_payload_raises patched_namespace truncated_map []
           (fst (read_map patched_namespace truncated_map []))
           (snd (read_map patched_namespace truncated_map [])) H1 H2).
  vm_compute. reflexivity.
Defined.

(** C4, as it is stated, fails: there is no condition of its own for a
    truncated payload. As the module is written, the truncated file
    raises the [NameError] that the well-formed file raises too; with
    the two names bound it raises the [ValueError] of [reshape], which a
    payload of twice the declared size raises too. *)
Lemma truncated_payload_not_distinct :
  truncated_payload truncated_map /\
  ~ raises_distinctly module_namespace truncated_payload truncated_map /\
  ~ raises_distinctly patched_namespace truncated_payload truncated_map.
Proof.
  split; [apply truncated_map_is_truncated|]. split.
  - intros (e & He & Hdistinct).
    assert (E : e = Exn NameError "dtype_mode").
    { vm_compute in He. inversion He. reflexivity. }
    subst e.
    destruct (Hdistinct example_map (Exn NameError "dtype_mode"))
      as (_ & sz & Hsz & Hnd); [vm_compute; reflexivity|reflexivity|].
    vm_compute in Hsz. inversion Hsz; subst sz.
    apply Hnd. exists 1. vm_compute. reflexivity.
  - intros (e & He & Hdistinct).
    assert (E : e = Exn ValueError "cannot reshape array").
    { vm_compute in He. inversion He. reflexivity. }
    subst e.
    destruct (Hdistinct doubled_map (Exn ValueError "cannot reshape array"))
      as (_ & sz & Hsz & Hnd); [vm_compute; reflexivity|reflexivity|].
    vm_compute in Hsz. inversion Hsz; subst sz.
    apply Hnd. exists 2. vm_compute. reflexivity.
Qed.

(** * Further properties of the map reader *)

(** The table of element types is indexed as a Python list is: a mode
    from -6 to 5 selects an entry, a negative one counting from the end. *)
Lemma mode_table_index MODE dtype :
  list_index mode_table MODE = OK dtype ->
  -6 <= MODE <= 5 /\ dtype = nth (Z.to_nat (MODE mod 6)) mode_table "".
Proof.
  intros H.
  assert (Hrange : -6 <= MODE <= 5).
  { unfold list_index in H. change (Z.of_nat (length mode_table)) with 6 in H.
    cbv zeta in H. destruct (Z.ltb_spec MODE 0).
    - destruct (Z.leb_spec 0 (MODE + 6)); [|discriminate].
      destruct (Z.ltb_spec (MODE + 6) 6); [|discriminate]. lia.
    - destruct (Z.leb_spec 0 MODE); [|discriminate].
      destruct (Z.ltb_spec MODE 6); [|discriminate]. lia. }
  split; [exact Hrange|].
  assert (Hcases : MODE = -6 \/ MODE = -5 \/ MODE = -4 \/ MODE = -3 \/ MODE = -2 \/
                   MODE = -1 \/ MODE = 0 \/ MODE = 1 \/ MODE = 2 \/ MODE = 3 \/
                   MODE = 4 \/ MODE = 5) by lia.
  repeat (destruct Hcases as [->|Hcases]; [vm_compute in H; inversion H; reflexivity|]).
  subst MODE. vm_compute in H. inversion H. reflexivity.
Qed.

Lemma mode_table_outside MODE :
  MODE < -6 \/ 5 < MODE ->
  list_index mode_table MODE = Raise (Exn IndexError "list index out of range").
Proof.
  intros H. unfold list_index. change (Z.of_nat (length mode_table)) with 6.
  cbv zeta. destruct (Z.ltb_spec MODE 0).
  - destruct (Z.leb_spec 0 (MODE + 6)); [lia|]. reflexivity.
  - destruct (Z.ltb_spec MODE 6); [lia|].
    rewrite andb_false_r. reflexivity.
Qed.

(** The steps of [read_map] up to the assignment of [data], with the log. *)
Lemma read_map_log_inv g file log a dx log' :
  read_map g file log = (OK (a, dx), log') ->
  exists MODE NSYMBT dtype_mode known,
    nth_error (header_words file) 3 = Some MODE /\
    nth_error (header_words file) 23 = Some NSYMBT /\
    lookup_name g "dtype_mode" = OK dtype_mode /\
    py_in_ints dtype_mode [0; 2] = OK known /\
    lookup_name g "dx" = OK dx /\
    log' = log ++ (if known then [] else [WarnMode MODE])
               ++ (if 0 <? NSYMBT then [WarnSymmetry] else []).
Proof.
  unfold read_map. intros H.
  inv_bind_as H words l1 Hrun; [|discriminate].
  apply lift_inv in Hrun as [Hw ->].
  assert (Ew : header_words file = words).
  { unfold frombuffer_int32 in Hw. destruct (_ =? _)%nat; inversion Hw. reflexivity. }
  inv_bind_as H MODE l1 Hrun; [|discriminate]. apply lift_inv in Hrun as [Hm ->].
  inv_bind_as H dtype l1 Hrun; [|discriminate]. apply lift_inv in Hrun as [Hdt ->].
  inv_bind_as H dtype_mode l1 Hrun; [|discriminate]. apply lift_inv in Hrun as [Hg ->].
  inv_bind_as H known l1 Hrun; [|discriminate]. apply lift_inv in Hrun as [Hk ->].
  inv_bind_as H u l1 Hrun; [|discriminate].
  inv_bind_as H NSYMBT l2 Hrun2; [|discriminate]. apply lift_inv in Hrun2 as [Hn ->].
  inv_bind_as H u2 l3 Hrun3; [|discriminate].
  inv_bind_as H flat l4 Hrun4; [|discriminate]. apply lift_inv in Hrun4 as [_ ->].
  inv_bind_as H data l5 Hrun5; [|discriminate]. apply lift_inv in Hrun5 as [_ ->].
  inv_bind_as H dx' l6 Hrun6; [|discriminate]. apply lift_inv in Hrun6 as [Hdx ->].
  inversion H; subst data dx' l3. clear H.
  exists MODE, NSYMBT, dtype_mode, known. rewrite Ew.
  unfold array_index in Hm, Hn.
  destruct (nth_error words 3) as [m|]; inversion Hm; subst m.
  destruct (nth_error words 23) as [n|]; inversion Hn; subst n.
  split; [reflexivity|]. split; [reflexivity|]. split; [auto|]. split; [auto|].
  split; [auto|].
  assert (E1 : l1 = log ++ (if known then [] else [WarnMode MODE])).
  { unfold when in Hrun. destruct known; simpl in Hrun;
      inversion Hrun; subst; [rewrite app_nil_r|]; reflexivity. }
  assert (E2 : log' = l1 ++ (if 0 <? NSYMBT then [WarnSymmetry] else [])).
  { destruct (0 <? NSYMBT); inversion Hrun3; subst; [|rewrite app_nil_r]; reflexivity. }
  rewrite E2, E1, <- app_assoc. reflexivity.
Qed.

Lemma int32_words_length n : forall buf,
  (length buf <= n)%nat -> (4 * length (int32_words buf) <= length buf)%nat.
Proof.
  induction n as [n IH] using lt_wf_ind. intros buf Hn.
  destruct buf as [|b0 [|b1 [|b2 [|b3 rest]]]]; simpl; try lia.
  assert (Hrest : (4 * length (int32_words rest) <= length rest)%nat).
  { apply (IH (length rest)); simpl in Hn; lia. }
  lia.
Qed.

(** X11. As the module is written, [read_map] returns on no file at all:
    it raises, it logs no warning, and the exception is the [NameError]
    for a name that nothing binds unless the header itself cannot be
    decoded ([ValueError], [IndexError]). *)
Theorem read_map_as_written_never_returns (file : list byte) (log : list warning) :
  exists e, read_map module_namespace file log = (Raise e, log) /\
    (e = Exn NameError "dtype_mode" \/ exn_cls e = ValueError \/
     exn_cls e = IndexError).
Proof.
  unfold read_map, bind, lift.
  unfold frombuffer_int32. destruct (_ =? _)%nat; [|eauto 6].
  unfold array_index. destruct (nth_error _ 3) as [MODE|]; [|eauto 6].
  destruct (list_index mode_table MODE) as [dtype|e] eqn:E.
  - simpl. eauto.
  - exists e. split; [reflexivity|]. right. right.
    unfold list_index in E.
    destruct (_ && _) in E; [|inversion E; reflexivity].
    destruct (nth_error _ _) in E; inversion E; reflexivity.
Qed.

(** X12. A mode below -6 or above 5 is outside the table of element
    types: whatever the module binds, [read_map] raises [IndexError]
    and logs nothing. *)
Theorem mode_outside_table_raises (g : namespace) (file : list byte)
    (log : list warning) (words : list Z) (MODE : Z) :
  frombuffer_int32 (take 1024 file) = OK words ->
  array_index words 3 = OK MODE ->
  MODE < -6 \/ 5 < MODE ->
  read_map g file log = (Raise (Exn IndexError "list index out of range"), log).
Proof.
  intros Hw Hm Hout. unfold read_map, bind, lift. rewrite Hw, Hm.
  rewrite (mode_table_outside MODE Hout). reflexivity.
Qed.

Lemma mode_outside_table_raises_witness :
  read_map patched_namespace mode6_map [] =
  (Raise (Exn IndexError "list index out of range"), []).
Proof.
  apply (mode_outside_table_raises patched_namespace mode6_map []
           (header_words mode6_map) 6).
  - vm_compute. reflexivity.
  - vm_compute. reflexivity.
  - lia.
Defined.

(** X13. What [read_map] returns, whatever the module binds: the mode is
    one of -6 to 5, a negative one counting from the end of the table,
    and not the entry ["cint32"]; the array has the element type of that
    entry and views exactly the bytes after the header and the symmetry
    block, a whole number of elements; with non-negative extents its
    shape is the extents; and the second component is the value that the
    module binds to [dx]. *)
Theorem read_map_returned_array (g : namespace) (file : list byte)
    (log : list warning) (a : ndarray) (dx : pyval) (log' : list warning) :
  read_map g file log = (OK (a, dx), log') ->
  exists MODE sz,
    nth_error (header_words file) 3 = Some MODE /\
    -6 <= MODE <= 5 /\ MODE mod 6 <> 3 /\
    nd_dtype a = nth (Z.to_nat (MODE mod 6)) mode_table "" /\
    np_itemsize (nd_dtype a) = Some sz /\
    nd_buffer a = payload file /\
    (length (payload file) mod sz = 0)%nat /\
    lookup_name g "dx" = OK dx /\
    (Forall (fun d => 0 <= d) (declared_extents file) ->
     nd_shape a = map Z.to_nat (declared_extents file)).
Proof.
  intros H.
  pose proof (read_map_log_inv _ _ _ _ _ _ H) as (_ & _ & _ & _ & _ & _ & _ & _ & Hdx & _).
  apply read_map_inv in H as (MODE & dtype & flat & Hm & Hdt & Hflat & Hre).
  pose proof (reshape_inv _ _ _ Hre) as [Hbuf Hty].
  pose proof (frombuffer_inv _ _ _ Hflat) as (sz & Hsz & Hmod & _ & Hbuf').
  assert (Eflat : nd_dtype flat = dtype).
  { unfold frombuffer in Hflat. rewrite Hsz in Hflat.
    destruct (_ =? _)%nat; inversion Hflat. reflexivity. }
  apply mode_table_index in Hdt as [Hrange Hdt].
  exists MODE, sz. split; [exact Hm|]. split; [exact Hrange|].
  split; [|split; [congruence|split; [congruence|split; [congruence|split;
    [exact Hmod|split; [exact Hdx|]]]]]].
  - intros E3. rewrite E3 in Hdt. subst dtype. vm_compute in Hsz. discriminate.
  - intros Hext. unfold reshape in Hre.
    destruct (known_size_nonneg _ Hext) as [Ek Ec]. rewrite Ec in Hre.
    destruct (2 ^ 63 <=? _); [discriminate|].
    destruct (_ =? _); inversion Hre. reflexivity.
Qed.

Lemma read_map_returned_array_witness :
  exists MODE sz,
    nth_error (header_words example_map) 3 = Some MODE /\
    -6 <= MODE <= 5 /\ MODE mod 6 <> 3 /\
    nd_dtype (NdArray "float32" [2; 3; 4]%nat (floats 24)) =
      nth (Z.to_nat (MODE mod 6)) mode_table "" /\
    np_itemsize (nd_dtype (NdArray "float32" [2; 3; 4]%nat (floats 24))) = Some sz /\
    nd_buffer (NdArray "float32" [2; 3; 4]%nat (floats 24)) = payload example_map /\
    (length (payload example_map) mod sz = 0)%nat /\
    lookup_name patched_namespace "dx" = OK (PFloat 1.0) /\
    (Forall (fun d => 0 <= d) (declared_extents example_map) ->
     nd_shape (NdArray "float32" [2; 3; 4]%nat (floats 24)) =
       map Z.to_nat (declared_extents example_map)).
Proof.
  apply (read_map_returned_array patched_namespace example_map []
           (NdArray "float32" [2; 3; 4]%nat (floats 24)) (PFloat 1.0) []).
  vm_compute. reflexivity.
Defined.

(** X14. The fourth entry of the table, ["cint32"], names no element
    type: for a file of mode 3, or -3, [read_map] returns in no
    namespace. *)
Theorem mode_cint32_never_returns (g : namespace) (file : list byte)
    (log : list warning) (r : result (ndarray * pyval)) (log' : list warning) :
  nth_error (header_words file) 3 = Some 3 \/
  nth_error (header_words file) 3 = Some (-3) ->
  read_map g file log = (r, log') ->
  exists e, r = Raise e.
Proof.
  intros Hmode H. destruct r as [[a dx]|e]; [|eauto]. exfalso.
  apply read_map_inv in H as (MODE & dtype & flat & Hm & Hdt & Hflat & _).
  apply frombuffer_inv in Hflat as (sz & Hsz & _).
  destruct Hmode as [E|E]; rewrite E in Hm; inversion Hm; subst MODE;
    vm_compute in Hdt; inversion Hdt; subst dtype; vm_compute in Hsz; discriminate.
Qed.

Lemma mode_cint32_never_returns_witness :
  exists e, fst (read_map patched_namespace mode3_map []) = Raise e.
Proof.
  apply (mode_cint32_never_returns patched_namespace mode3_map []
           (fst (read_map patched_namespace mode3_map []))
           (snd (read_map patched_namespace mode3_map []))).
  - left. vm_compute. reflexivity.
  - vm_compute. reflexivity.
Defined.

(** X15. The entries ["i8"] of the table are numpy's 8-byte integers: an
    array returned for a file of mode 0 or 5 has this element type, the
    byte count of the payload is a multiple of 8 and, with non-negative
    extents, 8 times their product. *)
Theorem mode_i8_reads_eight_bytes (g : namespace) (file : list byte)
    (log : list warning) (a : ndarray) (dx : pyval) (log' : list warning) :
  nth_error (header_words file) 3 = Some 0 \/
  nth_error (header_words file) 3 = Some 5 ->
  read_map g file log = (OK (a, dx), log') ->
  nd_dtype a = "i8" /\ (length (payload file) mod 8 = 0)%nat /\
  (Forall (fun d => 0 <= d) (declared_extents file) ->
   Z.of_nat (length (payload file)) = 8 * product (declared_extents file)).
Proof.
  intros Hmode H.
  pose proof (read_map_returns_whole _ _ _ _ _ _ H) as Hwhole.
  apply read_map_inv in H as (MODE & dtype & flat & Hm & Hdt & Hflat & Hre).
  pose proof (reshape_inv _ _ _ Hre) as [_ Hty].
  pose proof (frombuffer_inv _ _ _ Hflat) as (sz & Hsz & Hmod & _ & _).
  assert (Eflat : nd_dtype flat = dtype).
  { unfold frombuffer in Hflat. rewrite Hsz in Hflat.
    destruct (_ =? _)%nat; inversion Hflat. reflexivity. }
  assert (Edt : dtype = "i8").
  { destruct Hmode as [E|E]; rewrite E in Hm; inversion Hm; subst MODE;
      vm_compute in Hdt; inversion Hdt; reflexivity. }
  rewrite Edt in Hsz, Eflat.
  assert (sz = 8%nat) as -> by (vm_compute in Hsz; congruence).
  split; [congruence|]. split; [exact Hmod|].
  intros Hext. destruct (Hwhole Hext) as (sz' & Hsz' & Hlen & _).
  unfold element_size in Hsz'.
  assert (sz' = 8%nat) as ->
    by (destruct Hmode as [E|E]; rewrite E in Hsz'; vm_compute in Hsz'; congruence).
  exact Hlen.
Qed.

Lemma mode_i8_reads_eight_bytes_witness :
  nd_dtype (NdArray "i8" [2; 3; 4]%nat (floats 24 ++ floats 24)) = "i8" /\
  (length (payload mode0_map) mod 8 = 0)%nat /\
  (Forall (fun d => 0 <= d) (declared_extents mode0_map) ->
   Z.of_nat (length (payload mode0_map)) = 8 * product (declared_extents mode0_map)).
Proof.
  apply (mode_i8_reads_eight_bytes patched_namespace mode0_map []
           (NdArray "i8" [2; 3; 4]%nat (floats 24 ++ floats 24)) (PFloat 1.0) []).
  - left. vm_compute. reflexivity.
  - vm_compute. reflexivity.
Defined.



(** X17. A file of fewer than 96 bytes has no word 23: [read_map]
    returns for it in no namespace. *)
Theorem file_below_24_words_never_returns (g : namespace) (file : list byte)
    (log : list warning) (r : result (ndarray * pyval)) (log' : list warning) :
  (length file < 96)%nat ->
  read_map g file log = (r, log') ->
  exists e, r = Raise e.
Proof.
  intros Hlen H. destruct r as [[a dx]|e]; [|eauto]. exfalso.
  apply read_map_log_inv in H as (MODE & NSYMBT & dm & known & _ & Hn & _).
  assert (Hsome : (23 < length (header_words file))%nat).
  { apply nth_error_Some. congruence. }
  unfold header_words in Hsome.
  pose proof (int32_words_length _ (take 1024 file) (Nat.le_refl _)) as Hw.
  rewrite length_take in Hw. lia.
Qed.

Lemma file_below_24_words_never_returns_witness :
  exists e, fst (read_map patched_namespace words23_map []) = Raise e.
Proof.
  apply (file_below_24_words_never_returns patched_namespace words23_map []
           (fst (read_map patched_namespace words23_map []))
           (snd (read_map patched_namespace words23_map []))).
  - vm_compute. lia.
  - vm_compute. reflexivity.
Defined.
